(** * gh-upload-image: a shallow embedding of [src/index.js]

    The library uploads a local file to GitHub's asset store: it validates
    the request, asks the [gh] command-line tool for a token and for the
    numeric id of the repository, requests an upload policy, posts the file
    to the storage endpoint of that policy and assembles the result.

    Pure helpers ([getMimeType], [isExtensionAllowed], [parseRepository],
    [formatFileSize]) are Rocq functions.  Code that spawns [gh] or calls
    [fetch] runs in a small monad that records every such call in a trace and
    carries the thrown [Error], the outside world being a record of
    oracles. *)

From Stdlib Require Import ZArith List Bool Ascii String Lia.
From Stdlib Require Import DecimalString DecimalPos.
Import ListNotations.

Open Scope string_scope.

(** ** JavaScript strings

    A string is a sequence of bytes (UTF-8).  The characters the program
    tests for (['/'], ['.'], [':'], digits, ASCII letters, ASCII white space)
    are single bytes, and no byte of a multi-byte character equals one of
    them. *)

Module Js.

Definition is_upper (c : ascii) : bool :=
  (65 <=? nat_of_ascii c)%nat && (nat_of_ascii c <=? 90)%nat.

Definition lower_char (c : ascii) : ascii :=
  if is_upper c then ascii_of_nat (nat_of_ascii c + 32) else c.

(** [String.prototype.toLowerCase] on the ASCII letters.  Outside ASCII only
    U+212A (Kelvin sign) lowers to an ASCII letter, ['k'], which no key of
    the tables below contains, so look-ups are not affected. *)
Fixpoint toLowerCase (s : string) : string :=
  match s with
  | "" => ""
  | String c s' => String (lower_char c) (toLowerCase s')
  end.

(** [s.split(sep)] for a one-character separator: never empty, [[""]] for the
    empty string. *)
Fixpoint split (sep : ascii) (s : string) : list string :=
  match s with
  | "" => [""]
  | String c s' =>
      if Ascii.eqb c sep then "" :: split sep s'
      else match split sep s' with
           | seg :: rest => String c seg :: rest
           | [] => [String c ""]
           end
  end.

(** ASCII white space, as [trim] removes it (tab, LF, VT, FF, CR, space). *)
Definition is_space (c : ascii) : bool :=
  let n := nat_of_ascii c in
  ((9 <=? n)%nat && (n <=? 13)%nat) || (n =? 32)%nat.

Fixpoint trimStart (s : string) : string :=
  match s with
  | "" => ""
  | String c s' => if is_space c then trimStart s' else s
  end.

Fixpoint all_space (s : string) : bool :=
  match s with
  | "" => true
  | String c s' => is_space c && all_space s'
  end.

Fixpoint trimEnd (s : string) : string :=
  match s with
  | "" => ""
  | String c s' => if all_space s then "" else String c (trimEnd s')
  end.

Definition trim (s : string) : string := trimEnd (trimStart s).

(** [arr.join(sep)]. *)
Fixpoint join (sep : string) (l : list string) : string :=
  match l with
  | [] => ""
  | [x] => x
  | x :: rest => x ++ sep ++ join sep rest
  end.

(** [arr.includes(x)] on an array of strings. *)
Definition includes (l : list string) (x : string) : bool :=
  existsb (String.eqb x) l.

(** Own-property look-up in an object literal with string values. *)
Fixpoint lookup {A : Type} (k : string) (o : list (string * A)) : option A :=
  match o with
  | [] => None
  | (k', v) :: rest => if String.eqb k k' then Some v else lookup k rest
  end.

(** All the decimal digits of an integer, as [Number.prototype.toString]
    gives them for an integer below 2^53. *)
Definition string_of_Z (z : Z) : string := NilZero.string_of_int (Z.to_int z).

End Js.

(** ** [node:path], POSIX flavour

    The two functions of Node's [path] module the program calls.  They are
    library code, modelled by what they return. *)

Module Path.

(** The last non-empty ['/']-separated portion of the path: trailing
    separators are ignored and the empty string is returned when there is no
    such portion. *)
Definition basename (p : string) : string :=
  fold_left (fun acc seg => if String.eqb seg "" then acc else seg)
            (Js.split "/" p) "".

(** The suffix of [s] that starts at its last ['.'], when it has one. *)
Fixpoint last_dot_suffix (s : string) : option string :=
  match s with
  | "" => None
  | String c s' =>
      match last_dot_suffix s' with
      | Some e => Some e
      | None => if Ascii.eqb c "." then Some s else None
      end
  end.

(** From the last ['.'] of the last portion to its end; empty when that
    portion has no ['.'] other than a first character, and for [".."]. *)
Definition extname (p : string) : string :=
  match basename p with
  | "" => ""
  | String c rest =>
      if String.eqb (String c rest) ".." then ""
      else match last_dot_suffix rest with
           | Some e => e
           | None => ""
           end
  end.

End Path.

(** ** Extension and MIME tables *)

Definition ALLOWED_EXTENSIONS : list string :=
  [ ".gif"; ".jpg"; ".jpeg"; ".png"; ".docx"; ".gz"; ".log"; ".pdf";
    ".pptx"; ".txt"; ".xlsx"; ".zip"; ".webp"; ".svg"; ".mp4"; ".mov" ].

Definition MIME_TYPES : list (string * string) :=
  [ (".gif", "image/gif");
    (".jpg", "image/jpeg");
    (".jpeg", "image/jpeg");
    (".png", "image/png");
    (".webp", "image/webp");
    (".svg", "image/svg+xml");
    (".pdf", "application/pdf");
    (".docx",
     "application/vnd.openxmlformats-officedocument.wordprocessingml.document");
    (".pptx",
     "application/vnd.openxmlformats-officedocument.presentationml.presentation");
    (".xlsx", "application/vnd.openxmlformats-officedocument.spreadsheetml.sheet");
    (".txt", "text/plain");
    (".log", "text/plain");
    (".gz", "application/gzip");
    (".zip", "application/zip");
    (".mp4", "video/mp4");
    (".mov", "video/quicktime") ].

(** [MIME_TYPES[ext] || 'application/octet-stream']: the right operand is
    taken when the left one is [undefined] or the empty string.  An extension
    is empty or starts with ['.'], so no inherited property of the object is
    ever hit. *)
Definition getMimeType (filePath : string) : string :=
  let ext := Js.toLowerCase (Path.extname filePath) in
  match Js.lookup ext MIME_TYPES with
  | Some m => if String.eqb m "" then "application/octet-stream" else m
  | None => "application/octet-stream"
  end.

Definition isExtensionAllowed (filePath : string) : bool :=
  let ext := Js.toLowerCase (Path.extname filePath) in
  Js.includes ALLOWED_EXTENSIONS ext.

(** ** Thrown errors

    The program throws [new Error(message)] everywhere; the kind names the
    throw site after the taxonomy of the specification.  [RuntimeError] is an
    exception raised by the engine or by [fetch] itself ([TypeError],
    [SyntaxError]), which no function of the program catches. *)

Inductive error_kind : Type :=
| MissingArgument
| FileNotFound
| UnsupportedExtension
| InvalidReference
| AuthenticationFailed
| RepositoryResolutionFailed
| PolicyRequestFailed
| UploadFailed
| RuntimeError.

Record js_error : Type := mkError { kind : error_kind; message : string }.

Inductive result (A : Type) : Type :=
| Ok (a : A)
| Throw (e : js_error).

Arguments Ok {A} a.
Arguments Throw {A} e.

Definition error_kind_eqb (a b : error_kind) : bool :=
  match a, b with
  | MissingArgument, MissingArgument
  | FileNotFound, FileNotFound
  | UnsupportedExtension, UnsupportedExtension
  | InvalidReference, InvalidReference
  | AuthenticationFailed, AuthenticationFailed
  | RepositoryResolutionFailed, RepositoryResolutionFailed
  | PolicyRequestFailed, PolicyRequestFailed
  | UploadFailed, UploadFailed
  | RuntimeError, RuntimeError => true
  | _, _ => false
  end.

(** The kind of the error a computation ended with, if it threw. *)
Definition thrown {A : Type} (r : result A) : option error_kind :=
  match r with
  | Ok _ => None
  | Throw e => Some (kind e)
  end.

(** The double-quote character, for messages. *)
Definition dquote : string := String (ascii_of_nat 34) "".

(** ** Repository references *)

Module Regex.

(** [strip_prefix p s]: what follows the literal [p] at the start of [s]. *)
Fixpoint strip_prefix (p s : string) : option string :=
  match p, s with
  | "", _ => Some s
  | String a p', String b s' => if Ascii.eqb a b then strip_prefix p' s' else None
  | String _ _, "" => None
  end.

(** [span f s]: the longest prefix of [s] whose characters satisfy [f], and
    the rest. *)
Fixpoint span (f : ascii -> bool) (s : string) : string * string :=
  match s with
  | "" => ("", "")
  | String c s' =>
      if f c then let (a, b) := span f s' in (String c a, b) else ("", s)
  end.

Definition not_slash (c : ascii) : bool := negb (Ascii.eqb c "/").
Definition not_slash_dot (c : ascii) : bool :=
  negb (Ascii.eqb c "/") && negb (Ascii.eqb c ".").

(** One attempt of [/github\.com[/:]([^/]+)\/([^/.]+)/] at the start of [s].
    Both groups are greedy.  The first is followed by a literal ['/'], so
    only its longest run can be followed by one: a shorter run is followed
    by a character of the run.  Nothing follows the second group, so its
    longest run is the match. *)
Definition match_at (s : string) : option (string * string) :=
  match strip_prefix "github.com" s with
  | Some (String sep s1) =>
      if Ascii.eqb sep "/" || Ascii.eqb sep ":" then
        match span not_slash s1 with
        | (String o os, String _ s2) =>
            match span not_slash_dot s2 with
            | (String r rs, _) => Some (String o os, String r rs)
            | ("", _) => None
            end
        | _ => None
        end
      else None
  | _ => None
  end.

(** [repository.match(re)] without the [g] flag: the attempt at the leftmost
    position that succeeds. *)
Fixpoint search (s : string) : option (string * string) :=
  match match_at s with
  | Some m => Some m
  | None =>
      match s with
      | "" => None
      | String _ s' => search s'
      end
  end.

End Regex.

Record ParsedRepository : Type := mkRepo { owner : string; repo : string }.

Definition parseRepository (repository : string) : result ParsedRepository :=
  match Regex.search repository with
  | Some (o, r) => Ok {| owner := o; repo := r |}
  | None =>
      match Js.split "/" repository with
      | [p0; p1] => Ok {| owner := p0; repo := p1 |}
      | _ =>
          Throw (mkError InvalidReference
                   ("Invalid repository format: " ++ dquote ++ repository
                      ++ dquote ++ ". Use " ++ dquote ++ "owner/repo"
                      ++ dquote ++ " format."))
      end
  end.

(** ** Numbers

    A JavaScript number is a double.  The numbers of the program are
    integers: a file size, a status, an exit code, what [parseInt] returns.
    An integer stands for the double nearest to it, which is the integer
    itself up to 2^53. *)

Module Double.

(** The double nearest to a non-negative integer: 53 significant bits are
    kept, and a tie goes to the even significand. *)
Definition nearest (a : Z) : Z :=
  let e := (Z.log2 a - 52)%Z in
  if (e <=? 0)%Z then a
  else
    let q := Z.shiftr a e in
    let r := (a - Z.shiftl q e)%Z in
    let half := Z.shiftl 1 (e - 1) in
    let up := (half <? r)%Z || ((r =? half)%Z && Z.odd q) in
    Z.shiftl (if up then q + 1 else q) e.

(** The doubles end below 2^1024; what rounds to that is infinite. *)
Definition finite (a : Z) : bool := (Z.log2 a <? 1024)%Z.

(** Among the multiples of 10^p that read back as the double [d], the one
    nearest to [d], and of two equally near the one with the even digit. *)
Definition candidate (d : Z) (p : nat) : option Z :=
  let unit := (10 ^ Z.of_nat p)%Z in
  let below := (d / unit * unit)%Z in
  let above := (below + unit)%Z in
  let below_ok := (0 <? below)%Z && (nearest below =? d)%Z in
  let above_ok := (nearest above =? d)%Z in
  if below_ok && above_ok then
    if (d - below <? above - d)%Z then Some below
    else if (above - d <? d - below)%Z then Some above
    else Some (if Z.even (below / unit) then below else above)
  else if below_ok then Some below
  else if above_ok then Some above
  else None.

(** The decimal with the fewest significant digits that reads back as [d]:
    the search goes from many trailing zeros to none. *)
Fixpoint shortest (p : nat) (d : Z) : Z :=
  match candidate d p with
  | Some c => c
  | None =>
      match p with
      | O => d
      | S p' => shortest p' d
      end
  end.

Fixpoint strip_zeros (s : string) : string :=
  match s with
  | "" => ""
  | String c s' =>
      match strip_zeros s' with
      | "" => if Ascii.eqb c "0" then "" else String c ""
      | t => String c t
      end
  end.

(** The exponential notation of a number of 22 digits or more. *)
Definition exponential (digits : string) : string :=
  match strip_zeros digits with
  | "" => "0"
  | String c "" => String c ""
  | String c rest => String c ("." ++ rest)
  end ++ "e+" ++ Js.string_of_Z (Z.of_nat (String.length digits) - 1).

(** [Number.prototype.toString] of the double nearest to [z]: all its
    digits below 2^53; from there on the shortest decimal that reads back
    as the double, filled with zeros, and in exponential notation from
    10^21 on. *)
Definition to_string (z : Z) : string :=
  let a := nearest (Z.abs z) in
  if (a <? 2 ^ 53)%Z then Js.string_of_Z z
  else
    (if (z <? 0)%Z then "-" else "") ++
    (if finite a then
       let digits :=
         Js.string_of_Z (shortest (String.length (Js.string_of_Z a)) a) in
       if (String.length digits <=? 21)%nat then digits
       else exponential digits
     else "Infinity").

End Double.

(** ** File sizes *)

(** [x.toFixed(2)] for [x = num / den] with [den] a power of two, so that
    the quotient is an exact double: below 10^21 the hundredths [n] nearest
    to [x], the larger one on a tie, printed with two decimals; from 10^21
    on, where [x] is an integer, what [toString] gives. *)
Definition hundredths (num den : Z) : Z := (200 * num + den) / (2 * den).

Definition two_digits (n : Z) : string :=
  (if n <? 10 then "0" else "")%Z ++ Js.string_of_Z n.

Definition render_hundredths (n : Z) : string :=
  Js.string_of_Z (n / 100) ++ "." ++ two_digits (n mod 100).

Definition toFixed2 (num den : Z) : string :=
  if (10 ^ 21 * den <=? num)%Z then Double.to_string (num / den)
  else render_hundredths (hundredths num den).

Definition units : list string := ["B"; "KB"; "MB"; "GB"; "TB"].

Section FormatFileSize.

(** [Math.floor(Math.log(bytes) / Math.log(base))], which the engine
    computes in double precision; [bytes] is a positive integer. *)
Variable floor_log_ratio : Z -> Z.

Definition formatFileSize (bytes : Z) : string :=
  if (bytes =? 0)%Z then "0 B"
  else
    let base := 1024%Z in
    let unitIndex :=
      Z.min (floor_log_ratio bytes) (Z.of_nat (List.length units) - 1) in
    let unit := nth (Z.to_nat unitIndex) units "undefined" in
    if (unitIndex =? 0)%Z then Double.to_string bytes ++ " " ++ unit
    else toFixed2 bytes (base ^ unitIndex) ++ " " ++ unit.

End FormatFileSize.

(** The exact value of the logarithm quotient: [Z.log2 b / 10] is the floor
    of the logarithm of [b] in base 1024. *)
Definition exact_floor_log (b : Z) : Z := (Z.log2 b / 10)%Z.

(** ** JavaScript values

    What [response.json()] can produce, and [undefined].  Numbers are the
    integer doubles, the two infinities and [NaN]; an object is the list of
    its own properties in enumeration order, each key once. *)

Inductive number : Type :=
| NaN
| Int (z : Z)
| Infinity (negative : bool).

#[local] Unset Elimination Schemes.
Inductive value : Type :=
| VUndefined
| VNull
| VBool (b : bool)
| VNum (n : number)
| VStr (s : string)
| VArr (items : list value)
| VObj (props : list (string * value)).
#[local] Set Elimination Schemes.

Module Value.

(** The double nearest to an integer. *)
Definition of_Z (z : Z) : number :=
  let a := Double.nearest (Z.abs z) in
  if Double.finite a then Int (Z.sgn z * a) else Infinity (z <? 0)%Z.

Definition number_to_string (n : number) : string :=
  match n with
  | NaN => "NaN"
  | Int z => Double.to_string z
  | Infinity negative => (if negative then "-" else "") ++ "Infinity"
  end.

(** The string [ToString] makes of a value when it returns (see [converts]
    below): a primitive is printed; an array is the join of its elements,
    [null] and [undefined] printing as nothing; for an object
    [Object.prototype.toString] answers. *)
Fixpoint to_string (v : value) : string :=
  match v with
  | VUndefined => "undefined"
  | VNull => "null"
  | VBool true => "true"
  | VBool false => "false"
  | VNum n => number_to_string n
  | VStr s => s
  | VArr items =>
      Js.join ","
        (map (fun x => match x with
                       | VUndefined | VNull => ""
                       | _ => to_string x
                       end) items)
  | VObj _ => "[object Object]"
  end.

(** Whether [ToString] returns.  A parsed object inherits [toString] unless
    it has a property of its own with that name: such a property is a piece
    of data, not a function, the inherited [valueOf] returns the object
    itself, and the conversion ends in a [TypeError].  An array converts
    with [join], which converts its elements. *)
Fixpoint converts (v : value) : bool :=
  match v with
  | VObj props =>
      negb (existsb (fun kv => String.eqb (fst kv) "toString") props)
  | VArr items => forallb converts items
  | _ => true
  end.

(** [null] and [undefined]: the values a result type [string | null] and an
    optional chain treat as no value. *)
Definition is_absent (v : value) : bool :=
  match v with
  | VUndefined | VNull => true
  | _ => false
  end.

Definition type_error (what : string) : js_error :=
  mkError RuntimeError ("TypeError: " ++ what).

(** [ToString(v)], as a template literal applies it to a substitution,
    [FormData.append] to a value that is no [Blob] and [fetch] to a target
    that is no [Request]. *)
Definition ToString (v : value) : result string :=
  if converts v then Ok (to_string v)
  else Throw (type_error "Cannot convert object to primitive value").

(** [v.k] for a key that is no index and no inherited property ([upload_url],
    [form], [asset], [id]). *)
Definition get (v : value) (k : string) : result value :=
  match v with
  | VUndefined | VNull =>
      Throw (type_error ("Cannot read properties of " ++ to_string v))
  | VObj props =>
      Ok (match Js.lookup k props with Some x => x | None => VUndefined end)
  | _ => Ok VUndefined
  end.

(** [v?.k]. *)
Definition get_opt (v : value) (k : string) : result value :=
  if is_absent v then Ok VUndefined else get v k.

Fixpoint indexed {A : Type} (i : Z) (l : list A) : list (string * A) :=
  match l with
  | [] => []
  | x :: rest => (Js.string_of_Z i, x) :: indexed (i + 1) rest
  end.

Fixpoint chars (s : string) : list value :=
  match s with
  | "" => []
  | String c s' => VStr (String c "") :: chars s'
  end.

(** [Object.entries(v)]. *)
Definition entries (v : value) : result (list (string * value)) :=
  match v with
  | VUndefined | VNull =>
      Throw (type_error "Cannot convert undefined or null to object")
  | VObj props => Ok props
  | VArr items => Ok (indexed 0 items)
  | VStr s => Ok (indexed 0 (chars s))
  | VBool _ | VNum _ => Ok []
  end.

Definition is_digit (c : ascii) : bool :=
  (48 <=? nat_of_ascii c)%nat && (nat_of_ascii c <=? 57)%nat.

Definition digit_value (c : ascii) : Z := Z.of_nat (nat_of_ascii c - 48).

(** The value of the longest prefix of decimal digits, [None] when the
    string starts with no digit. *)
Fixpoint digits_prefix (s : string) (acc : option Z) : option Z :=
  match s with
  | "" => acc
  | String c s' =>
      if is_digit c then
        digits_prefix s'
          (Some (10 * match acc with Some a => a | None => 0 end
                 + digit_value c)%Z)
      else acc
  end.

(** [parseInt(s, 10)]: leading white space, a sign, then digits; anything
    after the digits is ignored and no digit at all gives [NaN].  The result
    is a double: the one nearest to the integer the digits spell (the
    standard leaves the digits after the twentieth to the engine; V8 rounds
    correctly). *)
Definition parseInt (s : string) : number :=
  let s := Js.trimStart s in
  let (negative, rest) :=
    match s with
    | String "-" r => (true, r)
    | String "+" r => (false, r)
    | _ => (false, s)
    end in
  match digits_prefix rest None with
  | None => NaN
  | Some z => of_Z (if negative then - z else z)
  end.

End Value.

(** ** The outside world

    The file system, the [gh] tool and the HTTP servers answer as oracles.
    Every process the program spawns and every request it sends is recorded
    in a trace, in order.  The size of a file is the number [statSync]
    reports. *)

Record stat : Type := mkStat { st_isFile : bool; st_size : Z }.

Inductive proc_outcome : Type :=
| Closed (code : option Z) (stdout stderr : string)
| SpawnError (msg : string).

Inductive part : Type :=
| Field (v : string)
| Blob (content type filename : string).

Inductive body : Type :=
| UrlEncoded (fields : list (string * string))
| FormData (parts : list (string * part)).

Record request : Type := mkRequest {
  req_url : string;
  req_method : string;
  req_headers : list (string * string);
  req_body : body
}.

Record response : Type := mkResponse {
  status : Z;
  statusText : string;
  text : string;
  json : option value
}.

Inductive fetch_outcome : Type :=
| Responded (r : response)
| Rejected (msg : string).

Record world : Type := mkWorld {
  fs_existsSync : string -> bool;
  fs_statSync : string -> option stat;
  fs_readFileSync : string -> option string;
  spawn : string -> list string -> proc_outcome;
  fetch : request -> fetch_outcome
}.

Inductive event : Type :=
| Spawned (command : string) (args : list string)
| Fetched (req : request).

(** A computation reads the world, returns the calls it made and either a
    value or the error it threw. *)
Definition io (A : Type) : Type := world -> list event * result A.

Definition ret {A : Type} (a : A) : io A := fun _ => ([], Ok a).

Definition throw {A : Type} (e : js_error) : io A := fun _ => ([], Throw e).

Definition lift {A : Type} (r : result A) : io A := fun _ => ([], r).

Definition bind {A B : Type} (m : io A) (k : A -> io B) : io B :=
  fun w =>
    match m w with
    | (t1, Ok a) => let (t2, r) := k a w in ((t1 ++ t2)%list, r)
    | (t1, Throw e) => (t1, Throw e)
    end.

(** [try { m } catch (error) { h(error) }]. *)
Definition try_catch {A : Type} (m : io A) (h : js_error -> io A) : io A :=
  fun w =>
    match m w with
    | (t1, Ok a) => (t1, Ok a)
    | (t1, Throw e) => let (t2, r) := h e w in ((t1 ++ t2)%list, r)
    end.

Declare Scope io_scope.
Delimit Scope io_scope with io.
Notation "x <- m ;; k" := (bind m (fun x => k))
  (at level 61, m at next level, right associativity) : io_scope.
Notation "m ;;; k" := (bind m (fun _ => k))
  (at level 61, right associativity) : io_scope.
Open Scope io_scope.

(** ** The program *)

(** [fs.existsSync(p) && fs.statSync(p).isFile()], [false] when [statSync]
    throws. *)
Definition fileExists (w : world) (filePath : string) : bool :=
  fs_existsSync w filePath &&
  match fs_statSync w filePath with
  | Some st => st_isFile st
  | None => false
  end.

Definition getFileSize (w : world) (filePath : string) : result Z :=
  match fs_statSync w filePath with
  | Some st => Ok (st_size st)
  | None =>
      Throw (mkError RuntimeError
               ("ENOENT: no such file or directory, stat " ++ filePath))
  end.

(** [spawn(command, args)], its output collected until the process closes.
    The error is a plain [Error], which both callers catch. *)
Definition execCommand (command : string) (args : list string) : io string :=
  fun w =>
    ([Spawned command args],
     match spawn w command args with
     | Closed (Some 0%Z) stdout _ => Ok (Js.trim stdout)
     | Closed code _ stderr =>
         let fallback :=
           "Command failed with exit code " ++
           match code with Some c => Js.string_of_Z c | None => "null" end in
         Throw (mkError RuntimeError
                  (if String.eqb (Js.trim stderr) "" then fallback
                   else Js.trim stderr))
     | SpawnError msg => Throw (mkError RuntimeError msg)
     end).

Definition getGitHubToken : io string :=
  try_catch
    (token <- execCommand "gh" ["auth"; "token"] ;; ret token)
    (fun error =>
       throw (mkError AuthenticationFailed
                ("Failed to get GitHub token. Make sure you are logged in with "
                   ++ dquote ++ "gh auth login" ++ dquote ++ ". "
                   ++ message error))).

Definition getRepositoryId (owner repo : string) : io number :=
  try_catch
    (result <- execCommand "gh"
                 ["api"; "repos/" ++ owner ++ "/" ++ repo; "--jq"; ".id"] ;;
     ret (Value.parseInt result))
    (fun error =>
       throw (mkError RepositoryResolutionFailed
                ("Failed to get repository ID for " ++ owner ++ "/" ++ repo
                   ++ ". Make sure the repository exists and you have access. "
                   ++ message error))).

Definition validateUploadInput (w : world) (filePath repository : string)
  : result unit :=
  if String.eqb filePath "" then
    Throw (mkError MissingArgument "filePath is required in options")
  else if String.eqb repository "" then
    Throw (mkError MissingArgument "repository is required in options")
  else if negb (fileExists w filePath) then
    Throw (mkError FileNotFound ("File does not exist: " ++ filePath))
  else if negb (isExtensionAllowed filePath) then
    let ext := Js.toLowerCase (Path.extname filePath) in
    Throw (mkError UnsupportedExtension
             ("File extension " ++ dquote ++ ext ++ dquote
                ++ " is not allowed. Allowed extensions: "
                ++ Js.join ", " ALLOWED_EXTENSIONS))
  else Ok tt.

(** [await fetch(...)]: the request is recorded; a rejection ([TypeError]
    for a network failure or a URL that does not parse) is thrown. *)
Definition do_fetch (req : request) : io response :=
  fun w =>
    ([Fetched req],
     match fetch w req with
     | Responded r => Ok r
     | Rejected msg => Throw (Value.type_error msg)
     end).

Definition response_ok (r : response) : bool :=
  ((200 <=? status r) && (status r <=? 299))%Z.

Definition response_json (r : response) : result value :=
  match json r with
  | Some v => Ok v
  | None =>
      Throw (mkError RuntimeError "SyntaxError: Unexpected token in JSON")
  end.

Definition POLICY_URL : string := "https://github.com/upload/policies/assets".

Definition policy_request (token : string) (repositoryId : number)
    (fileName : string) (fileSize : Z) (mimeType : string) : request :=
  {| req_url := POLICY_URL;
     req_method := "POST";
     req_headers :=
       [ ("Accept", "application/json");
         ("Content-Type", "application/x-www-form-urlencoded");
         ("Authorization", "token " ++ token);
         ("User-Agent", "gh-upload-image/0.1.0") ];
     req_body :=
       UrlEncoded
         [ ("name", fileName);
           ("size", Double.to_string fileSize);
           ("content_type", mimeType);
           ("repository_id", Value.number_to_string repositoryId) ] |}.

Definition requestUploadPolicy (token : string) (repositoryId : number)
    (fileName : string) (fileSize : Z) (mimeType : string) : io value :=
  response <-
    do_fetch (policy_request token repositoryId fileName fileSize mimeType) ;;
  if negb (response_ok response) then
    throw (mkError PolicyRequestFailed
             ("Failed to get upload policy: "
                ++ Js.string_of_Z (status response) ++ " "
                ++ statusText response ++ ". " ++ text response))
  else lift (response_json response).

Definition readFileSync (filePath : string) : io string :=
  fun w =>
    ([],
     match fs_readFileSync w filePath with
     | Some content => Ok content
     | None =>
         Throw (mkError RuntimeError
                  ("ENOENT: no such file or directory, open " ++ filePath))
     end).

(** The loop over [Object.entries(policy.form)]: [formData.append(key,
    value)] turns each value into a string, in order, and throws where that
    conversion throws. *)
Fixpoint append_entries (formEntries : list (string * value))
  : result (list (string * part)) :=
  match formEntries with
  | [] => Ok []
  | (key, value) :: rest =>
      match Value.ToString value with
      | Throw e => Throw e
      | Ok text =>
          match append_entries rest with
          | Throw e => Throw e
          | Ok parts => Ok ((key, Field text) :: parts)
          end
      end
  end.

Definition storage_request (upload_url : string)
    (fields : list (string * part)) (fileBuffer fileName mimeType : string)
  : request :=
  {| req_url := upload_url;
     req_method := "POST";
     req_headers := [];
     req_body :=
       FormData
         (fields ++ [("file", Blob fileBuffer mimeType fileName)])%list |}.

(** [fetch] turns its target into a string before anything is sent, so a
    target that does not convert sends no request. *)
Definition uploadFileToStorage (policy : value)
    (filePath fileName mimeType : string) : io unit :=
  fileBuffer <- readFileSync filePath ;;
  form <- lift (Value.get policy "form") ;;
  formEntries <- lift (Value.entries form) ;;
  fields <- lift (append_entries formEntries) ;;
  upload_url <- lift (Value.get policy "upload_url") ;;
  target <- lift (Value.ToString upload_url) ;;
  response <-
    do_fetch (storage_request target fields fileBuffer fileName mimeType) ;;
  let isSuccess :=
    response_ok response || (status response =? 201)%Z
    || (status response =? 204)%Z in
  if negb isSuccess then
    throw (mkError UploadFailed
             ("Failed to upload file: "
                ++ Js.string_of_Z (status response) ++ " "
                ++ statusText response ++ ". " ++ text response))
  else ret tt.

Record options : Type := mkOptions {
  opt_filePath : string;
  opt_repository : string;
  opt_verbose : bool;
  opt_dryMode : bool
}.

Record UploadResult : Type := mkResult {
  url : string;
  assetId : value;
  fileName : string;
  fileSize : Z;
  mimeType : string;
  repository : string;
  dryMode : bool
}.

Definition CDN_PREFIX : string := "https://github.com/user-attachments/assets/".

(** [policy.asset?.id]. *)
Definition policy_asset_id (policy : value) : result value :=
  match Value.get policy "asset" with
  | Ok asset => Value.get_opt asset "id"
  | Throw e => Throw e
  end.

(** [uploadImage(options)] with the default logger.  [log.debug] only
    prints, and only when [verbose] is set; its argument is evaluated either
    way, which matters where the evaluation can throw: the two template
    literals that read [policy] and turn what they read into a string. *)
Definition uploadImage (o : options) : io UploadResult :=
  let filePath := opt_filePath o in
  (fun w => lift (validateUploadInput w filePath (opt_repository o)) w) ;;;
  parsed <- lift (parseRepository (opt_repository o)) ;;
  let owner := owner parsed in
  let repo := repo parsed in
  let fileName := Path.basename filePath in
  fileSize <- (fun w => lift (getFileSize w filePath) w) ;;
  let mimeType := getMimeType filePath in
  if opt_dryMode o then
    ret {| url := "[DRY MODE] Would upload " ++ fileName ++ " to "
                    ++ owner ++ "/" ++ repo;
           assetId := VNull;
           fileName := fileName;
           fileSize := fileSize;
           mimeType := mimeType;
           repository := owner ++ "/" ++ repo;
           dryMode := true |}
  else
    token <- getGitHubToken ;;
    repositoryId <- getRepositoryId owner repo ;;
    policy <- requestUploadPolicy token repositoryId fileName fileSize
                mimeType ;;
    upload_url <- lift (Value.get policy "upload_url") ;;
    lift (Value.ToString upload_url) ;;;
    asset_id <- lift (policy_asset_id policy) ;;
    lift (Value.ToString asset_id) ;;;
    uploadFileToStorage policy filePath fileName mimeType ;;;
    assetId <- lift (policy_asset_id policy) ;;
    id <- lift (Value.ToString assetId) ;;
    let url := CDN_PREFIX ++ id in
    ret {| url := url;
           assetId := assetId;
           fileName := fileName;
           fileSize := fileSize;
           mimeType := mimeType;
           repository := owner ++ "/" ++ repo;
           dryMode := false |}.

(** The process and network calls of a run, and how it ended. *)
Definition calls {A : Type} (run : list event * result A) : list event :=
  fst run.

Definition outcome {A : Type} (run : list event * result A) : result A :=
  snd run.

(** ** Test doubles

    Worlds for the scenarios of the test suite and of the specification: one
    regular ten-byte file [shot.png], a [gh] that answers the token and the
    repository query, and HTTP servers that answer the policy request and
    the storage request. *)

Module Scenario.

Definition newline : string := String (ascii_of_nat 10) "".

Definition png_path : string := "/tmp/shot.png".

Definition one_file : string -> option stat :=
  fun p => if String.eqb p png_path then Some (mkStat true 10) else None.

Definition gh (api : proc_outcome) (command : string) (args : list string)
  : proc_outcome :=
  match args with
  | ["auth"; "token"] => Closed (Some 0%Z) ("gho_secret" ++ newline) ""
  | "api" :: _ => api
  | _ => SpawnError "spawn ENOENT"
  end.

Definition http (policy storage : fetch_outcome) (req : request)
  : fetch_outcome :=
  if String.eqb (req_url req) POLICY_URL then policy else storage.

Definition make (api : proc_outcome) (policy storage : fetch_outcome) : world :=
  {| fs_existsSync := fun p => String.eqb p png_path;
     fs_statSync := one_file;
     fs_readFileSync :=
       fun p => if String.eqb p png_path then Some "0123456789" else None;
     spawn := gh api;
     fetch := http policy storage |}.

(** No tool and no network: every spawn and every request fails. *)
Definition offline : world :=
  {| fs_existsSync := fun p => String.eqb p png_path;
     fs_statSync := one_file;
     fs_readFileSync := fun _ => None;
     spawn := fun _ _ => SpawnError "spawn gh ENOENT";
     fetch := fun _ => Rejected "fetch failed" |}.

Definition json_response (code : Z) (v : value) : fetch_outcome :=
  Responded {| status := code; statusText := "OK"; text := "";
               json := Some v |}.

Definition no_content : fetch_outcome :=
  Responded {| status := 204; statusText := "No Content"; text := "";
               json := None |}.

Definition forbidden : fetch_outcome :=
  Responded {| status := 403; statusText := "Forbidden";
               text := "Bad credentials"; json := None |}.

Definition id_42 : proc_outcome := Closed (Some 0%Z) ("42" ++ newline) "".

(** The policy of the end-to-end scenario. *)
Definition full_policy : value :=
  VObj [ ("upload_url", VStr "https://store/x");
         ("form", VObj [("k", VStr "v")]);
         ("asset", VObj [("id", VStr "abc123")]) ].

(** The same policy without its asset. *)
Definition policy_without_asset : value :=
  VObj [ ("upload_url", VStr "https://store/x");
         ("form", VObj [("k", VStr "v")]) ].



Definition request_for (dry : bool) (repository : string) : options :=
  {| opt_filePath := png_path; opt_repository := repository;
     opt_verbose := false; opt_dryMode := dry |}.

End Scenario.

(** * Properties *)

(** ** Strings *)

Fixpoint has_char (c : ascii) (s : string) : bool :=
  match s with
  | "" => false
  | String x s' => Ascii.eqb x c || has_char c s'
  end.

(** [starts_with_any cs s]: [s] is not empty and its first character is one
    of [cs]. *)
Definition starts_with_any (cs : list ascii) (s : string) : bool :=
  match s with
  | "" => false
  | String x _ => existsb (Ascii.eqb x) cs
  end.



(** The sixteen extensions, as the documentation lists them, each with the
    MIME type documented for it. *)
Definition documented_types : list (string * string) :=
  [ (".gif", "image/gif"); (".jpg", "image/jpeg"); (".jpeg", "image/jpeg");
    (".png", "image/png"); (".webp", "image/webp"); (".svg", "image/svg+xml");
    (".mp4", "video/mp4"); (".mov", "video/quicktime");
    (".pdf", "application/pdf");
    (".docx",
     "application/vnd.openxmlformats-officedocument.wordprocessingml.document");
    (".pptx",
     "application/vnd.openxmlformats-officedocument.presentationml.presentation");
    (".xlsx", "application/vnd.openxmlformats-officedocument.spreadsheetml.sheet");
    (".txt", "text/plain"); (".log", "text/plain");
    (".zip", "application/zip"); (".gz", "application/gzip") ].

Definition documented_extensions : list string := map fst documented_types.

(** The character of a decimal digit. *)
Definition digit_char (d : Z) : ascii := ascii_of_nat (48 + Z.to_nat d).

(** [n] hundredths is [num / den] rounded to two decimals: the nearest
    multiple of 0.01, the larger one on a tie. *)
Definition rounds_to (n num den : Z) : Prop :=
  (- den <= 2 * (100 * num - n * den) < den)%Z.

(** The trimmed standard output of a process that exited with code 0;
    nothing for another exit code, a signal or a spawn failure. *)
Definition exit_stdout (p : proc_outcome) : option string :=
  match p with
  | Closed (Some 0%Z) stdout _ => Some (Js.trim stdout)
  | _ => None
  end.

(** The two invocations of [gh]. *)
Definition token_call : event := Spawned "gh" ["auth"; "token"].

Definition resolver_args (owner repo : string) : list string :=
  ["api"; "repos/" ++ owner ++ "/" ++ repo; "--jq"; ".id"].

Definition resolver_call (owner repo : string) : event :=
  Spawned "gh" (resolver_args owner repo).

(** The network and process steps of [uploadImage], which follow the
    dry-run test. *)
Definition online_steps (filePath : string) (parsed : ParsedRepository)
    (size : Z) : io UploadResult :=
  let fileName := Path.basename filePath in
  let mimeType := getMimeType filePath in
  token <- getGitHubToken ;;
  repositoryId <- getRepositoryId (owner parsed) (repo parsed) ;;
  policy <- requestUploadPolicy token repositoryId fileName size mimeType ;;
  upload_url <- lift (Value.get policy "upload_url") ;;
  lift (Value.ToString upload_url) ;;;
  asset_id <- lift (policy_asset_id policy) ;;
  lift (Value.ToString asset_id) ;;;
  uploadFileToStorage policy filePath fileName mimeType ;;;
  assetId <- lift (policy_asset_id policy) ;;
  id <- lift (Value.ToString assetId) ;;
  ret {| url := CDN_PREFIX ++ id;
         assetId := assetId;
         fileName := fileName;
         fileSize := size;
         mimeType := mimeType;
         repository := owner parsed ++ "/" ++ repo parsed;
         dryMode := false |}.

(** The asset id of a policy that gets past the two debug lines which
    follow the policy request: the upload URL and [policy.asset?.id] can be
    read and both convert to a string. *)
Definition printable_asset_id (policy : value) : option value :=
  match Value.get policy "upload_url", policy_asset_id policy with
  | Ok upload_url, Ok a =>
      if Value.converts upload_url && Value.converts a then Some a else None
  | _, _ => None
  end.

(** The fields [formData.append] makes of the entries of a form when every
    value converts. *)
Definition form_fields (entries : list (string * value))
  : list (string * part) :=
  map (fun kv => (fst kv, Field (Value.to_string (snd kv)))) entries.

Definition all_convert (entries : list (string * value)) : bool :=
  forallb (fun kv => Value.converts (snd kv)) entries.

(** A run that is not dry receives an upload policy: the local steps pass,
    [gh] answers both invocations with exit code 0 and the policy endpoint
    answers the request with a 2xx status and a body that parses. *)
Definition policy_received (w : world) (o : options)
    (parsed : ParsedRepository) (st : stat) (token out : string)
    (r : response) (policy : value) : Prop :=
  opt_dryMode o = false /\
  validateUploadInput w (opt_filePath o) (opt_repository o) = Ok tt /\
  parseRepository (opt_repository o) = Ok parsed /\
  fs_statSync w (opt_filePath o) = Some st /\
  exit_stdout (spawn w "gh" ["auth"; "token"]) = Some token /\
  exit_stdout (spawn w "gh" (resolver_args (owner parsed) (repo parsed)))
  = Some out /\
  fetch w (policy_request token (Value.parseInt out)
             (Path.basename (opt_filePath o)) (st_size st)
             (getMimeType (opt_filePath o))) = Responded r /\
  response_ok r = true /\
  json r = Some policy.

(** The local steps of a run pass: validation, the repository parser and
    the size of the file. *)
Definition local_steps_pass (w : world) (o : options)
    (parsed : ParsedRepository) (st : stat) : Prop :=
  validateUploadInput w (opt_filePath o) (opt_repository o) = Ok tt /\
  parseRepository (opt_repository o) = Ok parsed /\
  fs_statSync w (opt_filePath o) = Some st.

(** The policy request of a run, once the token and the output of the
    resolver are known. *)
Definition policy_request_of (o : options) (st : stat) (token out : string)
  : request :=
  policy_request token (Value.parseInt out) (Path.basename (opt_filePath o))
    (st_size st) (getMimeType (opt_filePath o)).

(** ** Markdown

    [generateMarkdown(result, altText)] takes any two values. *)

(** What a condition, [!v] and [||] take for true. *)
Definition truthy (v : value) : bool :=
  match v with
  | VUndefined | VNull | VBool false | VNum NaN | VNum (Int 0%Z) | VStr "" =>
      false
  | _ => true
  end.

(** The template literal converts [alt] before it reads [result.url]. *)
Definition generateMarkdown (uploadResult altText : value) : result string :=
  let alt :=
    if truthy altText then Ok altText
    else
      match Value.get uploadResult "fileName" with
      | Ok fileName => Ok (if truthy fileName then fileName else VStr "image")
      | Throw e => Throw e
      end in
  match alt with
  | Throw e => Throw e
  | Ok alt =>
      match Value.ToString alt with
      | Throw e => Throw e
      | Ok alt_text =>
          match Value.get uploadResult "url" with
          | Throw e => Throw e
          | Ok url =>
              match Value.ToString url with
              | Throw e => Throw e
              | Ok url_text => Ok ("![" ++ alt_text ++ "](" ++ url_text ++ ")")
              end
          end
      end
  end.

(** The object [uploadImage] returns. *)
Definition result_object (r : UploadResult) : value :=
  VObj [ ("url", VStr (url r));
         ("assetId", assetId r);
         ("fileName", VStr (fileName r));
         ("fileSize", VNum (Int (fileSize r)));
         ("mimeType", VStr (mimeType r));
         ("repository", VStr (repository r));
         ("dryMode", VBool (dryMode r)) ].

(** ** The command line ([src/cli.js]) *)

Definition BOOLEAN_FLAGS : list (string * string) :=
  [ ("-h", "help");
    ("--help", "help");
    ("-V", "version");
    ("--version", "version");
    ("-v", "verbose");
    ("--verbose", "verbose");
    ("-d", "dryMode");
    ("--dry", "dryMode");
    ("--dry-mode", "dryMode");
    ("-m", "markdown");
    ("--markdown", "markdown") ].

Definition VALUE_FLAGS : list (string * string) :=
  [ ("-a", "altText");
    ("--alt", "altText");
    ("-r", "repository");
    ("--repository", "repository");
    ("--repo", "repository") ].

(** The properties an object literal inherits from [Object.prototype]; each
    is a function or an object, so [BOOLEAN_FLAGS[arg]] is true for these
    names too. *)
Definition OBJECT_PROTOTYPE : list string :=
  [ "constructor"; "__defineGetter__"; "__defineSetter__"; "hasOwnProperty";
    "__lookupGetter__"; "__lookupSetter__"; "isPrototypeOf";
    "propertyIsEnumerable"; "toString"; "valueOf"; "__proto__";
    "toLocaleString" ].

(** The options object of [parseArgs].  The three fields that hold [null],
    [undefined] or a string are values. *)
Record cli_options : Type := mkCli {
  cli_filePath : value;
  cli_repository : value;
  cli_verbose : bool;
  cli_dryMode : bool;
  cli_markdown : bool;
  cli_altText : value;
  cli_help : bool;
  cli_version : bool
}.

Definition initial_options : cli_options :=
  {| cli_filePath := VNull;
     cli_repository := VNull;
     cli_verbose := false;
     cli_dryMode := false;
     cli_markdown := false;
     cli_altText := VNull;
     cli_help := false;
     cli_version := false |}.

(** [options[field] = true] for a field name of [BOOLEAN_FLAGS]. *)
Definition set_flag (field : string) (o : cli_options) : cli_options :=
  if String.eqb field "help" then
    mkCli (cli_filePath o) (cli_repository o) (cli_verbose o) (cli_dryMode o)
      (cli_markdown o) (cli_altText o) true (cli_version o)
  else if String.eqb field "version" then
    mkCli (cli_filePath o) (cli_repository o) (cli_verbose o) (cli_dryMode o)
      (cli_markdown o) (cli_altText o) (cli_help o) true
  else if String.eqb field "verbose" then
    mkCli (cli_filePath o) (cli_repository o) true (cli_dryMode o)
      (cli_markdown o) (cli_altText o) (cli_help o) (cli_version o)
  else if String.eqb field "dryMode" then
    mkCli (cli_filePath o) (cli_repository o) (cli_verbose o) true
      (cli_markdown o) (cli_altText o) (cli_help o) (cli_version o)
  else if String.eqb field "markdown" then
    mkCli (cli_filePath o) (cli_repository o) (cli_verbose o) (cli_dryMode o)
      true (cli_altText o) (cli_help o) (cli_version o)
  else o.

(** [options[field] = v] for a field name of [VALUE_FLAGS]. *)
Definition set_value (field : string) (v : value) (o : cli_options)
  : cli_options :=
  if String.eqb field "altText" then
    mkCli (cli_filePath o) (cli_repository o) (cli_verbose o) (cli_dryMode o)
      (cli_markdown o) v (cli_help o) (cli_version o)
  else if String.eqb field "repository" then
    mkCli (cli_filePath o) v (cli_verbose o) (cli_dryMode o)
      (cli_markdown o) (cli_altText o) (cli_help o) (cli_version o)
  else o.

Definition set_filePath (v : value) (o : cli_options) : cli_options :=
  mkCli v (cli_repository o) (cli_verbose o) (cli_dryMode o)
    (cli_markdown o) (cli_altText o) (cli_help o) (cli_version o).

Definition startsWith_dash (arg : string) : bool :=
  match arg with
  | String c _ => Ascii.eqb c "-"
  | "" => false
  end.

(** The loop of [parseArgs] from index [i] on, [args] being the arguments
    from that index.  An inherited name passes the first test and sets a
    property no one reads.  A value flag takes the next argument, whatever
    it is, and [undefined] when there is none. *)
Fixpoint parse_loop (args : list string) (options : cli_options)
  : cli_options :=
  match args with
  | [] => options
  | arg :: rest =>
      match Js.lookup arg BOOLEAN_FLAGS with
      | Some field => parse_loop rest (set_flag field options)
      | None =>
          if Js.includes OBJECT_PROTOTYPE arg then parse_loop rest options
          else
            match Js.lookup arg VALUE_FLAGS with
            | Some field =>
                match rest with
                | v :: rest' => parse_loop rest' (set_value field (VStr v) options)
                | [] => set_value field VUndefined options
                end
            | None =>
                if negb (startsWith_dash arg)
                   && negb (truthy (cli_filePath options))
                then parse_loop rest (set_filePath (VStr arg) options)
                else parse_loop rest options
            end
      end
  end.

Definition parseArgs (args : list string) : cli_options :=
  parse_loop args initial_options.

(** A line break. *)
Definition LF : string := String (ascii_of_nat 10) "".

(** The text of [showHelp]. *)
Definition HELP : string :=
  Js.join LF
    [ "";
      "gh-upload-image - Upload images to GitHub";
      "";
      "USAGE:";
      "  gh-upload-image <image-file> -r <owner/repo> [options]";
      "";
      "ARGUMENTS:";
      "  <image-file>           Path to the image file to upload";
      "";
      "OPTIONS:";
      "  -r, --repo <repo>      Repository in " ++ dquote ++ "owner/repo"
        ++ dquote ++ " format (required)";
      "  -m, --markdown         Output markdown format";
      "  -a, --alt <text>       Alt text for markdown output";
      "  -d, --dry, --dry-mode  Dry run mode - show what would be done";
      "  -v, --verbose          Enable verbose output";
      "  -h, --help             Show this help message";
      "  -V, --version          Show version number";
      "";
      "SUPPORTED FILE TYPES:";
      "  " ++ Js.join ", " ALLOWED_EXTENSIONS;
      "";
      "EXAMPLES:";
      "  # Upload an image to a repository";
      "  gh-upload-image screenshot.png -r owner/repo";
      "";
      "  # Get markdown output";
      "  gh-upload-image diagram.png -r owner/repo --markdown";
      "";
      "  # With custom alt text";
      "  gh-upload-image photo.jpg -r owner/repo -m -a " ++ dquote
        ++ "My Photo" ++ dquote;
      "";
      "  # Dry run mode";
      "  gh-upload-image image.gif -r owner/repo --dry";
      "";
      "AUTHENTICATION:";
      "  Uses the GitHub CLI (gh) for authentication.";
      "  Make sure you are logged in with: gh auth login";
      "";
      "NOTES:";
      "  - Images are uploaded to GitHub's CDN and can be used in issues,";
      "    pull requests, comments, and markdown files.";
      "  - Both public and private repositories are supported.";
      "  - The uploaded URL format: https://github.com/user-attachments/assets/<id>";
      "" ].

(** What the process writes: a line on standard output, a line on standard
    error, the stack of an error (its text is the engine's), and the lines
    the debug logger of [uploadImage] prints under [verbose] (there may be
    none), which are not spelled out. *)
Inductive console : Type :=
| Stdout (line : string)
| Stderr (line : string)
| StderrStack (e : js_error)
| DebugLines.

(** How the process ends: what it wrote, the process and network calls it
    made and its exit code. *)
Record cli_run : Type := mkRun {
  printed : list console;
  made : list event;
  exit_code : Z
}.

Definition usage_error (what : string) : cli_run :=
  {| printed :=
       [ Stderr ("Error: " ++ what);
         Stderr "Usage: gh-upload-image <image-file> -r <owner/repo>";
         Stderr ("Run " ++ dquote ++ "gh-upload-image --help" ++ dquote
                   ++ " for more information") ];
     made := [];
     exit_code := 1 |}.

Section Main.

(** [Math.floor(Math.log(bytes) / Math.log(base))] of [formatFileSize]. *)
Variable floor_log_ratio : Z -> Z.

(** The [catch] block of [main]; an [Error] has a stack. *)
Definition main_catch (verbose : bool) (before : list console)
    (calls : list event) (error : js_error) : cli_run :=
  {| printed :=
       (before
          ++ [Stderr ""; Stderr ("Error: " ++ message error)]
          ++ (if verbose
              then [Stderr ""; Stderr "Stack trace:"; StderrStack error]
              else []))%list;
     made := calls;
     exit_code := 1 |}.

(** The lines of [main] before it calls [uploadImage]. *)
Definition main_file_info (w : world) (options : cli_options)
    (filePath repository : string) : result (list console) :=
  if fileExists w filePath then
    match getFileSize w filePath with
    | Throw e => Throw e
    | Ok fileSize =>
        let dryModePrefix := if cli_dryMode options then "[DRY] " else "" in
        Ok ((if cli_verbose options
             then [ Stdout ("File: " ++ filePath);
                    Stdout ("Size: " ++ formatFileSize floor_log_ratio fileSize);
                    Stdout ("Repository: " ++ repository);
                    Stdout "" ]
             else [])
              ++ [ Stdout (dryModePrefix ++ "Uploading "
                             ++ formatFileSize floor_log_ratio fileSize
                             ++ " to " ++ repository ++ "...") ])%list
    end
  else Ok [].

(** The lines of [main] for a result, and the error that ends them when a
    conversion to a string throws. *)
Definition main_display (options : cli_options) (r : UploadResult)
  : list console * option js_error :=
  if dryMode r then
    ([ Stdout "DRY MODE: Would upload image";
       Stdout ("  File: " ++ fileName r);
       Stdout ("  Size: " ++ formatFileSize floor_log_ratio (fileSize r));
       Stdout ("  Repository: " ++ repository r) ], None)
  else
    match
      (if cli_markdown options then
         match generateMarkdown (result_object r) (cli_altText options) with
         | Ok markdown => Ok [Stdout ""; Stdout "Markdown:"; Stdout markdown]
         | Throw e => Throw e
         end
       else Ok [Stdout ("URL: " ++ url r)])
    with
    | Throw e => ([Stdout "Upload successful!"], Some e)
    | Ok shown =>
        if cli_verbose options then
          match Value.ToString (assetId r) with
          | Throw e =>
              ([Stdout "Upload successful!"] ++ shown
                 ++ [Stdout ""; Stdout "Details:"], Some e)%list
          | Ok id =>
              ([Stdout "Upload successful!"] ++ shown
                 ++ [ Stdout "";
                      Stdout "Details:";
                      Stdout ("  Asset ID: " ++ id);
                      Stdout ("  File name: " ++ fileName r);
                      Stdout ("  File size: "
                                ++ formatFileSize floor_log_ratio (fileSize r));
                      Stdout ("  MIME type: " ++ mimeType r);
                      Stdout ("  Repository: " ++ repository r) ], None)%list
          end
        else ([Stdout "Upload successful!"] ++ shown, None)%list
    end.

(** [main()] for the arguments after the script name.  [process.exit] ends
    the process at once, so each branch is a final state. *)
Definition main (args : list string) (w : world) : cli_run :=
  let options := parseArgs args in
  if cli_help options then
    {| printed := [Stdout HELP]; made := []; exit_code := 0 |}
  else if cli_version options then
    {| printed := [Stdout "0.1.0"]; made := []; exit_code := 0 |}
  else if negb (truthy (cli_filePath options)) then
    usage_error "Image file path is required"
  else if negb (truthy (cli_repository options)) then
    usage_error "Repository is required"
  else
    let filePath := Value.to_string (cli_filePath options) in
    let repository := Value.to_string (cli_repository options) in
    match main_file_info w options filePath repository with
    | Throw e => main_catch (cli_verbose options) [] [] e
    | Ok info =>
        let run :=
          uploadImage
            {| opt_filePath := filePath;
               opt_repository := repository;
               opt_verbose := cli_verbose options;
               opt_dryMode := cli_dryMode options |} w in
        let logged :=
          (info ++ (if cli_verbose options then [DebugLines] else []))%list in
        match outcome run with
        | Throw e => main_catch (cli_verbose options) logged (calls run) e
        | Ok r =>
            match main_display options r with
            | (shown, Some e) =>
                main_catch (cli_verbose options) (logged ++ shown) (calls run) e
            | (shown, None) =>
                {| printed := (logged ++ shown)%list;
                   made := calls run;
                   exit_code := 0 |}
            end
        end
    end.

End Main.

(** A command line read item by item: a boolean flag, a value flag with
    the argument after it, a positional argument, or an argument that is
    skipped (one with a dash that is no flag, or an inherited name). *)
Inductive cli_item : Type :=
| Flag (name : string)
| Opt (name value : string)
| Positional (arg : string)
| Skipped (arg : string).

Definition has_key {A : Type} (k : string) (table : list (string * A)) : bool :=
  match Js.lookup k table with
  | Some _ => true
  | None => false
  end.

Definition item_ok (it : cli_item) : bool :=
  match it with
  | Flag name => has_key name BOOLEAN_FLAGS
  | Opt name _ => has_key name VALUE_FLAGS
  | Positional arg =>
      negb (startsWith_dash arg) && negb (String.eqb arg "")
      && negb (Js.includes OBJECT_PROTOTYPE arg)
  | Skipped arg =>
      negb (has_key arg BOOLEAN_FLAGS) && negb (has_key arg VALUE_FLAGS)
      && (startsWith_dash arg || Js.includes OBJECT_PROTOTYPE arg)
  end.

Definition tokens (it : cli_item) : list string :=
  match it with
  | Flag name => [name]
  | Opt name value => [name; value]
  | Positional arg => [arg]
  | Skipped arg => [arg]
  end.

Definition command_line (items : list cli_item) : list string :=
  flat_map tokens items.

(** Some flag of the items stands for the field. *)
Definition flag_given (field : string) (items : list cli_item) : bool :=
  existsb (fun it =>
             match it with
             | Flag name =>
                 match Js.lookup name BOOLEAN_FLAGS with
                 | Some f => String.eqb f field
                 | None => false
                 end
             | _ => false
             end) items.

(** The value of the last value flag of the items that stands for the
    field, [start] when there is none. *)
Fixpoint last_value (field : string) (start : value) (items : list cli_item)
  : value :=
  match items with
  | [] => start
  | Opt name v :: rest =>
      match Js.lookup name VALUE_FLAGS with
      | Some f => last_value field (if String.eqb f field then VStr v else start) rest
      | None => last_value field start rest
      end
  | _ :: rest => last_value field start rest
  end.

(** The first positional argument of the items, [start] when there is
    none. *)
Fixpoint first_positional (start : value) (items : list cli_item) : value :=
  match items with
  | [] => start
  | Positional arg :: _ => VStr arg
  | _ :: rest => first_positional start rest
  end.


Lemma strip_prefix_sound (p s t : string) :
  Regex.strip_prefix p s = Some t -> s = p ++ t.
Proof.
  revert s; induction p as [|x p IH]; intros s H; simpl in *.
  - now inversion H.
  - destruct s as [|y s]; [discriminate |].
    destruct (Ascii.eqb_spec x y) as [->|]; [| discriminate].
    now rewrite (IH _ H).
Qed.

(** What [span] returns: the two parts make up the string, the first holds
    only characters that pass and the second starts with one that fails. *)
Lemma span_sound (f : ascii -> bool) (s a b : string) :
  Regex.span f s = (a, b) ->
  s = a ++ b /\
  (forall c, has_char c a = true -> f c = true) /\
  match b with "" => True | String c _ => f c = false end.
Proof.
  revert a b; induction s as [|x s IH]; intros a b H; simpl in H.
  - inversion H; subst; simpl; repeat split; intros; discriminate.
  - destruct (f x) eqn:Hx.
    + destruct (Regex.span f s) as [a' b'] eqn:Hs.
      inversion H; subst; clear H.
      destruct (IH _ _ eq_refl) as (E & Ha & Hb).
      simpl; repeat split; [now rewrite E | | exact Hb].
      intros c Hc. apply orb_true_iff in Hc as [Hc | Hc].
      * apply Ascii.eqb_eq in Hc; now subst.
      * now apply Ha.
    + inversion H; subst; simpl; repeat split; [intros; discriminate | exact Hx].
Qed.


Lemma has_char_false_iff (c : ascii) (s : string) (f : ascii -> bool) :
  (forall x, f x = negb (Ascii.eqb x c)) ->
  has_char c s = false <-> (forall x, has_char x s = true -> f x = true).
Proof.
  intros Hf; induction s as [|y s IH]; simpl.
  - split; [intros; discriminate | reflexivity].
  - rewrite orb_false_iff, IH; split.
    + intros [Hy Hs] x Hx. apply orb_true_iff in Hx as [Hx | Hx].
      * apply Ascii.eqb_eq in Hx; subst. now rewrite Hf, Hy.
      * now apply Hs.
    + intros H; split.
      * specialize (H y); rewrite Ascii.eqb_refl in H; specialize (H eq_refl).
        rewrite Hf in H. now destruct (Ascii.eqb y c).
      * intros x Hx; apply H; rewrite Hx; apply orb_true_r.
Qed.

(** ** The URL pattern *)

(** A successful attempt reads the host, a separator, an owner without
    ['/'], a ['/'] and a name without ['/'] or ['.'] that ends where the
    string ends or at the first ['/'] or ['.']. *)
Lemma match_at_sound (s o r : string) :
  Regex.match_at s = Some (o, r) ->
  exists sep rest,
    s = "github.com" ++ String sep (o ++ "/" ++ r ++ rest) /\
    (sep = "/"%char \/ sep = ":"%char) /\
    o <> "" /\ has_char "/" o = false /\
    r <> "" /\ has_char "/" r = false /\ has_char "." r = false /\
    (rest = "" \/ starts_with_any ["/"; "."]%char rest = true).
Proof.
  unfold Regex.match_at; intros H.
  destruct (Regex.strip_prefix "github.com" s) as [[|sep s1]|] eqn:Hp;
    try discriminate.
  apply strip_prefix_sound in Hp.
  destruct (Ascii.eqb sep "/" || Ascii.eqb sep ":") eqn:Hsep; [| discriminate].
  destruct (Regex.span Regex.not_slash s1) as [[|o1 os] [|c s2]] eqn:Ho;
    try discriminate.
  destruct (Regex.span Regex.not_slash_dot s2) as [[|r1 rs] rest] eqn:Hr;
    try discriminate.
  inversion H; subst o r; clear H.
  apply span_sound in Ho as (E1 & Ho & Hc).
  apply span_sound in Hr as (E2 & Hr & Hrest).
  unfold Regex.not_slash in Hc. apply negb_false_iff, Ascii.eqb_eq in Hc. subst c.
  exists sep, rest. repeat split.
  - rewrite Hp, E1, E2. reflexivity.
  - apply orb_true_iff in Hsep as [E | E]; apply Ascii.eqb_eq in E; auto.
  - discriminate.
  - apply (has_char_false_iff "/" _ Regex.not_slash); [reflexivity | exact Ho].
  - discriminate.
  - destruct (has_char "/" (String r1 rs)) eqn:E; [| reflexivity].
    apply Hr in E. discriminate.
  - destruct (has_char "." (String r1 rs)) eqn:E; [| reflexivity].
    apply Hr in E. discriminate.
  - destruct rest as [|x rest]; [now left | right].
    unfold Regex.not_slash_dot in Hrest. simpl.
    destruct (Ascii.eqb x "/"), (Ascii.eqb x "."); simpl in *;
      try reflexivity; discriminate.
Qed.

(** The search returns the result of an attempt at some position. *)
Lemma search_sound (s : string) (m : string * string) :
  Regex.search s = Some m ->
  exists pre t, s = pre ++ t /\ Regex.match_at t = Some m.
Proof.
  induction s as [|x s IH]; intros H.
  - vm_compute in H. discriminate.
  - cbn [Regex.search] in H.
    destruct (Regex.match_at (String x s)) eqn:E.
    + inversion H; subst. now exists "", (String x s).
    + destruct (IH H) as (pre & t & -> & Ht).
      now exists (String x pre), t.
Qed.









(** C7. [parseRepository] returns owner "owner" and repo "repo" for the four
    accepted forms of a reference, and throws the invalid-reference error
    for "invalid", for the empty string and for "a/b/c". *)
Theorem parseRepository_examples :
  parseRepository "owner/repo" = Ok (mkRepo "owner" "repo") /\
  parseRepository "https://github.com/owner/repo" = Ok (mkRepo "owner" "repo") /\
  parseRepository "https://github.com/owner/repo.git"
    = Ok (mkRepo "owner" "repo") /\
  parseRepository "git@github.com:owner/repo.git" = Ok (mkRepo "owner" "repo") /\
  thrown (parseRepository "invalid") = Some InvalidReference /\
  thrown (parseRepository "") = Some InvalidReference /\
  thrown (parseRepository "a/b/c") = Some InvalidReference.
Proof. repeat split; reflexivity. Qed.

(** C6, as the claim states it, fails: a reference that does not match the
    URL pattern and splits into two segments is accepted even when a segment
    is empty. *)
Lemma parseRepository_accepts_empty_segment :
  Regex.search "a/" = None /\
  parseRepository "a/" = Ok (mkRepo "a" "") /\
  Regex.search "/b" = None /\
  parseRepository "/b" = Ok (mkRepo "" "b").
Proof. repeat split; reflexivity. Qed.

(** C6, amended. For every string that does not match the URL pattern,
    [parseRepository] succeeds exactly when splitting on ['/'] yields two
    segments, empty or not, and returns them as owner and repo; any other
    number of segments (one for the empty string) throws the
    invalid-reference error. *)
Theorem parseRepository_fallback (s : string) :
  Regex.search s = None ->
  (forall o r, Js.split "/" s = [o; r] <-> parseRepository s = Ok (mkRepo o r))
  /\ (List.length (Js.split "/" s) <> 2%nat ->
      thrown (parseRepository s) = Some InvalidReference).
Proof.
  intros Hs. unfold parseRepository. rewrite Hs.
  destruct (Js.split "/" s) as [|p0 [|p1 [|p2 l]]]; split;
    try (intros o r; split; intros H; (discriminate || (now inversion H)));
    try reflexivity; intros H; simpl in H; congruence.
Qed.

Lemma parseRepository_fallback_witness :
  (forall o r, ["a"; "b"] = [o; r] <-> parseRepository "a/b" = Ok (mkRepo o r))
  /\ thrown (parseRepository "a/b/c") = Some InvalidReference
  /\ thrown (parseRepository "") = Some InvalidReference.
Proof.
  split; [| split].
  - exact (proj1 (parseRepository_fallback "a/b" eq_refl)).
  - apply (proj2 (parseRepository_fallback "a/b/c" eq_refl)). discriminate.
  - apply (proj2 (parseRepository_fallback "" eq_refl)). discriminate.
Defined.




(** ** Extensions and MIME types *)

Lemma lower_char_eqb_slash (c : ascii) :
  Ascii.eqb (Js.lower_char c) "/" = Ascii.eqb c "/".
Proof. destruct c as [[] [] [] [] [] [] [] []]; reflexivity. Qed.

Lemma lower_char_eqb_dot (c : ascii) :
  Ascii.eqb (Js.lower_char c) "." = Ascii.eqb c ".".
Proof. destruct c as [[] [] [] [] [] [] [] []]; reflexivity. Qed.

Lemma split_toLowerCase (s : string) :
  Js.split "/" (Js.toLowerCase s) = map Js.toLowerCase (Js.split "/" s).
Proof.
  induction s as [|c s IH]; [reflexivity |].
  simpl. rewrite lower_char_eqb_slash, IH.
  destruct (Ascii.eqb c "/"); [reflexivity |].
  now destruct (Js.split "/" s).
Qed.

Lemma basename_toLowerCase (p : string) :
  Path.basename (Js.toLowerCase p) = Js.toLowerCase (Path.basename p).
Proof.
  unfold Path.basename. rewrite split_toLowerCase.
  change "" with (Js.toLowerCase "") at 2.
  generalize "" at 2 4 as acc. generalize (Js.split "/" p) as l.
  induction l as [|seg l IH]; intros acc; [reflexivity |].
  simpl. rewrite <- IH. now destruct seg.
Qed.

Lemma last_dot_suffix_toLowerCase (s : string) :
  Path.last_dot_suffix (Js.toLowerCase s) =
  option_map Js.toLowerCase (Path.last_dot_suffix s).
Proof.
  induction s as [|c s IH]; [reflexivity |].
  simpl. rewrite IH, lower_char_eqb_dot.
  destruct (Path.last_dot_suffix s); [reflexivity |].
  now destruct (Ascii.eqb c ".").
Qed.

Lemma eqb_dotdot_toLowerCase (b : string) :
  String.eqb (Js.toLowerCase b) ".." = String.eqb b "..".
Proof.
  destruct b as [|c1 [|c2 [|c3 b]]]; simpl;
    rewrite ?lower_char_eqb_dot; reflexivity.
Qed.

(** The extension of the lowered path is the lowered extension. *)
Lemma extname_toLowerCase (p : string) :
  Path.extname (Js.toLowerCase p) = Js.toLowerCase (Path.extname p).
Proof.
  unfold Path.extname. rewrite basename_toLowerCase.
  destruct (Path.basename p) as [|c rest]; [reflexivity |].
  cbn [Js.toLowerCase].
  change (String (Js.lower_char c) (Js.toLowerCase rest))
    with (Js.toLowerCase (String c rest)).
  rewrite eqb_dotdot_toLowerCase.
  destruct (String.eqb (String c rest) ".."); [reflexivity |].
  rewrite last_dot_suffix_toLowerCase.
  now destruct (Path.last_dot_suffix rest).
Qed.

Lemma includes_In (l : list string) (x : string) :
  Js.includes l x = true <-> In x l.
Proof.
  unfold Js.includes. rewrite existsb_exists. split.
  - intros (y & Hy & E). apply String.eqb_eq in E. now subst.
  - intros H. exists x. split; [exact H | apply String.eqb_refl].
Qed.

Lemma lookup_In {A : Type} (k : string) (o : list (string * A)) (v : A) :
  Js.lookup k o = Some v -> In k (map fst o).
Proof.
  induction o as [|[k' v'] o IH]; simpl; [discriminate |].
  destruct (String.eqb_spec k k'); [now left | right; now apply IH].
Qed.

(** C8. For every file name whose lowered extension is one of the sixteen
    documented ones, [isExtensionAllowed] is true and [getMimeType] is the
    type documented for it; for every other file name [isExtensionAllowed]
    is false and [getMimeType] is the generic binary type; and two names
    that differ only in the case of their letters get the same answers. *)
Theorem extension_table_correct (filePath : string) :
  let ext := Js.toLowerCase (Path.extname filePath) in
  (In ext documented_extensions ->
   isExtensionAllowed filePath = true /\
   Js.lookup ext documented_types = Some (getMimeType filePath))
  /\ (~ In ext documented_extensions ->
      isExtensionAllowed filePath = false /\
      getMimeType filePath = "application/octet-stream")
  /\ (forall other,
         Js.toLowerCase other = Js.toLowerCase filePath ->
         isExtensionAllowed other = isExtensionAllowed filePath /\
         getMimeType other = getMimeType filePath).
Proof.
  intros ext. unfold isExtensionAllowed, getMimeType. fold ext.
  split; [| split].
  - intros H. simpl in H.
    repeat (destruct H as [H | H]; [rewrite <- H; split; reflexivity |]).
    contradiction.
  - intros H. split.
    + destruct (Js.includes ALLOWED_EXTENSIONS ext) eqn:E; [| reflexivity].
      apply includes_In in E. exfalso. apply H.
      simpl in E |- *. tauto.
    + destruct (Js.lookup ext MIME_TYPES) as [m|] eqn:E; [| reflexivity].
      apply lookup_In in E. exfalso. apply H.
      simpl in E |- *. tauto.
  - intros other H.
    assert (E : Js.toLowerCase (Path.extname other) = ext).
    { unfold ext. now rewrite <- !extname_toLowerCase, H. }
    now rewrite E.
Qed.

Lemma extension_table_correct_witness :
  (isExtensionAllowed "Photo.JPG" = true /\
   Some "image/jpeg" = Some (getMimeType "Photo.JPG"))
  /\ (isExtensionAllowed "run.sh" = false /\
      getMimeType "run.sh" = "application/octet-stream")
  /\ (isExtensionAllowed "photo.jpg" = isExtensionAllowed "Photo.JPG" /\
      getMimeType "photo.jpg" = getMimeType "Photo.JPG").
Proof.
  split; [| split].
  - refine (proj1 (extension_table_correct "Photo.JPG") _).
    vm_compute. tauto.
  - refine (proj1 (proj2 (extension_table_correct "run.sh")) _).
    vm_compute. intuition discriminate.
  - exact (proj2 (proj2 (extension_table_correct "Photo.JPG")) "photo.jpg"
             eq_refl).
Defined.

(** ** File sizes *)

Lemma hundredths_rounds (num den : Z) :
  (0 < den)%Z -> rounds_to (hundredths num den) num den.
Proof.
  intros Hden. unfold rounds_to, hundredths.
  pose proof (Z.div_mod (200 * num + den) (2 * den) ltac:(lia)) as E.
  pose proof (Z.mod_pos_bound (200 * num + den) (2 * den) ltac:(lia)) as B.
  nia.
Qed.

(** ** The orchestrator *)

(** A request that passes validation names a file the file system knows. *)
Lemma validate_ok_stat (w : world) (filePath repository : string) :
  validateUploadInput w filePath repository = Ok tt ->
  filePath <> "" /\ repository <> "" /\ isExtensionAllowed filePath = true /\
  exists st, fs_statSync w filePath = Some st /\ st_isFile st = true.
Proof.
  unfold validateUploadInput, fileExists.
  destruct (String.eqb_spec filePath ""); [discriminate |].
  destruct (String.eqb_spec repository ""); [discriminate |].
  destruct (fs_existsSync w filePath); simpl; [| discriminate].
  destruct (fs_statSync w filePath) as [st|]; simpl; [| discriminate].
  destruct (st_isFile st) eqn:Hst; simpl; [| discriminate].
  destruct (isExtensionAllowed filePath); simpl; [| discriminate].
  intros _. repeat split; try assumption. now exists st.
Qed.

(** The steps before the dry-run test make no call. *)
Lemma uploadImage_local_steps (o : options) (w : world) :
  uploadImage o w =
  match validateUploadInput w (opt_filePath o) (opt_repository o) with
  | Throw e => ([], Throw e)
  | Ok _ =>
      match parseRepository (opt_repository o) with
      | Throw e => ([], Throw e)
      | Ok parsed =>
          match getFileSize w (opt_filePath o) with
          | Throw e => ([], Throw e)
          | Ok size =>
              if opt_dryMode o then
                ([], Ok {| url := "[DRY MODE] Would upload "
                                    ++ Path.basename (opt_filePath o) ++ " to "
                                    ++ owner parsed ++ "/" ++ repo parsed;
                           assetId := VNull;
                           fileName := Path.basename (opt_filePath o);
                           fileSize := size;
                           mimeType := getMimeType (opt_filePath o);
                           repository := owner parsed ++ "/" ++ repo parsed;
                           dryMode := true |})
              else uploadImage o w
          end
      end
  end.
Proof.
  unfold uploadImage at 1, bind, lift, ret.
  destruct (validateUploadInput w (opt_filePath o) (opt_repository o)) as [[]|e] eqn:Hv;
    [| reflexivity].
  destruct (parseRepository (opt_repository o)) as [parsed|e] eqn:Hp;
    [| reflexivity].
  destruct (getFileSize w (opt_filePath o)) as [size|e] eqn:Hs; [| reflexivity].
  destruct (opt_dryMode o) eqn:Hd; [reflexivity |].
  unfold uploadImage, bind, lift, ret. rewrite Hv, Hp, Hs, Hd. reflexivity.
Qed.

(** C4. Validation comes first: when it throws, [uploadImage] throws the
    same error and has made no process or network call, so a run that made
    a call passed validation.  The checks are made in the order empty file
    path, empty repository, missing file, extension outside the allow-list;
    in particular a path that is no existing regular file fails with the
    file-not-found error before the credential provider is invoked. *)
Theorem validation_precedes_calls
    (w : world) (filePath repository : string) (verbose dry : bool) :
  let o := mkOptions filePath repository verbose dry in
  let validation := validateUploadInput w filePath repository in
  (forall e, validation = Throw e -> uploadImage o w = ([], Throw e))
  /\ (calls (uploadImage o w) <> [] -> validation = Ok tt)
  /\ (filePath = "" -> thrown validation = Some MissingArgument)
  /\ (filePath <> "" -> repository = "" ->
      thrown validation = Some MissingArgument)
  /\ (filePath <> "" -> repository <> "" -> fileExists w filePath = false ->
      thrown validation = Some FileNotFound)
  /\ (filePath <> "" -> repository <> "" -> fileExists w filePath = true ->
      isExtensionAllowed filePath = false ->
      thrown validation = Some UnsupportedExtension)
  /\ (filePath <> "" -> repository <> "" -> fileExists w filePath = true ->
      isExtensionAllowed filePath = true -> validation = Ok tt)
  /\ (filePath <> "" -> repository <> "" -> fileExists w filePath = false ->
      calls (uploadImage o w) = [] /\
      thrown (outcome (uploadImage o w)) = Some FileNotFound).
Proof.
  intros o validation.
  assert (A : forall e, validation = Throw e -> uploadImage o w = ([], Throw e)).
  { intros e He. rewrite uploadImage_local_steps. simpl.
    fold validation. now rewrite He. }
  assert (F : filePath <> "" -> repository <> "" ->
              fileExists w filePath = false ->
              validation =
              Throw (mkError FileNotFound ("File does not exist: " ++ filePath))).
  { intros H1 H2 H3. unfold validation, validateUploadInput.
    destruct (String.eqb_spec filePath ""); [contradiction |].
    destruct (String.eqb_spec repository ""); [contradiction |].
    now rewrite H3. }
  split; [exact A |]. split.
  { intros Hc. destruct validation as [[]|e] eqn:Hv; [reflexivity |].
    rewrite (A e eq_refl) in Hc. now elim Hc. }
  split. { intros ->. reflexivity. }
  split. { intros H1 ->. unfold validation, validateUploadInput.
           now destruct (String.eqb_spec filePath ""). }
  split. { intros H1 H2 H3. now rewrite (F H1 H2 H3). }
  split. { intros H1 H2 H3 H4. unfold validation, validateUploadInput.
           destruct (String.eqb_spec filePath ""); [contradiction |].
           destruct (String.eqb_spec repository ""); [contradiction |].
           now rewrite H3, H4. }
  split. { intros H1 H2 H3 H4. unfold validation, validateUploadInput.
           destruct (String.eqb_spec filePath ""); [contradiction |].
           destruct (String.eqb_spec repository ""); [contradiction |].
           now rewrite H3, H4. }
  intros H1 H2 H3. now rewrite (A _ (F H1 H2 H3)).
Qed.

Lemma validation_precedes_calls_witness :
  calls (uploadImage (mkOptions "/tmp/missing.png" "o/r" false false)
           (Scenario.make Scenario.id_42
              (Scenario.json_response 200 Scenario.full_policy)
              Scenario.no_content)) = []
  /\ thrown (outcome (uploadImage (mkOptions "/tmp/missing.png" "o/r" false false)
                        (Scenario.make Scenario.id_42
                           (Scenario.json_response 200 Scenario.full_policy)
                           Scenario.no_content))) = Some FileNotFound.
Proof.
  apply (proj2 (proj2 (proj2 (proj2 (proj2 (proj2 (proj2
           (validation_precedes_calls
              (Scenario.make Scenario.id_42
                 (Scenario.json_response 200 Scenario.full_policy)
                 Scenario.no_content)
              "/tmp/missing.png" "o/r" false false)))))))).
  - discriminate.
  - discriminate.
  - reflexivity.
Defined.

(** C5, as the claim states it, fails: a dry run whose inputs pass
    validation throws when the repository reference does not parse. *)
Lemma dry_run_invalid_reference :
  validateUploadInput Scenario.offline Scenario.png_path "invalid" = Ok tt
  /\ calls (uploadImage (Scenario.request_for true "invalid") Scenario.offline)
     = []
  /\ thrown (outcome (uploadImage (Scenario.request_for true "invalid")
                        Scenario.offline)) = Some InvalidReference.
Proof. repeat split; reflexivity. Qed.

(** C5, amended. A dry run makes no process or network call, whatever its
    inputs, and the only errors it throws are those of validation and of the
    repository parser, never the authentication, resolution, policy or
    upload error.  When its inputs pass validation and the repository
    reference parses, it returns a result with [dryMode] set, no asset id,
    the size of the file in bytes, the MIME type of its extension and a
    placeholder URL made of the file name and the repository; so it does for
    the ten-byte PNG file and repository "o/r". *)
Theorem dry_run_is_local (w : world) (o : options) :
  opt_dryMode o = true ->
  calls (uploadImage o w) = []
  /\ (forall e, outcome (uploadImage o w) = Throw e ->
      In (kind e)
         [MissingArgument; FileNotFound; UnsupportedExtension; InvalidReference])
  /\ (forall parsed,
         validateUploadInput w (opt_filePath o) (opt_repository o) = Ok tt ->
         parseRepository (opt_repository o) = Ok parsed ->
         exists st,
           fs_statSync w (opt_filePath o) = Some st /\
           outcome (uploadImage o w) =
           Ok {| url := "[DRY MODE] Would upload "
                          ++ Path.basename (opt_filePath o) ++ " to "
                          ++ owner parsed ++ "/" ++ repo parsed;
                 assetId := VNull;
                 fileName := Path.basename (opt_filePath o);
                 fileSize := st_size st;
                 mimeType := getMimeType (opt_filePath o);
                 repository := owner parsed ++ "/" ++ repo parsed;
                 dryMode := true |})
  /\ uploadImage (Scenario.request_for true "o/r") Scenario.offline =
     ([], Ok {| url := "[DRY MODE] Would upload shot.png to o/r";
                assetId := VNull;
                fileName := "shot.png";
                fileSize := 10;
                mimeType := "image/png";
                repository := "o/r";
                dryMode := true |}).
Proof.
  intros Hd. rewrite uploadImage_local_steps, Hd.
  destruct (validateUploadInput w (opt_filePath o) (opt_repository o))
    as [[]|e] eqn:Hv.
  - destruct (validate_ok_stat _ _ _ Hv) as (_ & _ & _ & st & Hst & _).
    unfold getFileSize. rewrite Hst.
    destruct (parseRepository (opt_repository o)) as [parsed|e] eqn:Hp.
    + repeat split; try discriminate.
      intros parsed' _ E. inversion E; subst. now exists st.
    + repeat split; try discriminate.
      * intros e' E. inversion E; subst.
        unfold parseRepository in Hp.
        destruct (Regex.search (opt_repository o)) as [[? ?]|]; [discriminate |].
        destruct (Js.split "/" (opt_repository o)) as [|? [|? [|? ?]]];
          inversion Hp; simpl; tauto.
  - repeat split; try discriminate.
    intros e' E. inversion E; subst.
    unfold validateUploadInput in Hv.
    repeat match type of Hv with
           | (if ?c then _ else _) = _ => destruct c
           end; inversion Hv; simpl; tauto.
Qed.

Lemma dry_run_is_local_witness :
  calls (uploadImage (Scenario.request_for true "o/r") Scenario.offline) = []
  /\ exists st,
       Scenario.one_file Scenario.png_path = Some st /\
       outcome (uploadImage (Scenario.request_for true "o/r") Scenario.offline)
       = Ok {| url := "[DRY MODE] Would upload shot.png to o/r";
               assetId := VNull;
               fileName := "shot.png";
               fileSize := st_size st;
               mimeType := "image/png";
               repository := "o/r";
               dryMode := true |}.
Proof.
  pose proof (dry_run_is_local Scenario.offline
                (Scenario.request_for true "o/r") eq_refl) as (H1 & _ & H3 & _).
  split; [exact H1 |].
  exact (H3 (mkRepo "o" "r") eq_refl eq_refl).
Defined.

(** ** The online steps *)

(** After the local steps a run that is not dry is the run of the online
    steps. *)
Lemma uploadImage_online (o : options) (w : world)
    (parsed : ParsedRepository) (size : Z) :
  opt_dryMode o = false ->
  validateUploadInput w (opt_filePath o) (opt_repository o) = Ok tt ->
  parseRepository (opt_repository o) = Ok parsed ->
  getFileSize w (opt_filePath o) = Ok size ->
  uploadImage o w = online_steps (opt_filePath o) parsed size w.
Proof.
  intros Hd Hv Hp Hs.
  unfold uploadImage, online_steps.
  unfold bind at 1, lift at 1. rewrite Hv.
  unfold bind at 1, lift at 1. rewrite Hp.
  unfold bind at 1, lift at 1. rewrite Hs, Hd.
  now destruct (bind getGitHubToken _ w).
Qed.

(** A run that is not dry and gets past the local steps. *)
Lemma uploadImage_cases (o : options) (w : world) :
  opt_dryMode o = false ->
  (exists e, uploadImage o w = ([], Throw e) /\
             In (kind e) [MissingArgument; FileNotFound; UnsupportedExtension;
                          InvalidReference])
  \/ (exists parsed st,
         validateUploadInput w (opt_filePath o) (opt_repository o) = Ok tt /\
         parseRepository (opt_repository o) = Ok parsed /\
         fs_statSync w (opt_filePath o) = Some st /\
         uploadImage o w
         = online_steps (opt_filePath o) parsed (st_size st) w).
Proof.
  intros Hd.
  destruct (validateUploadInput w (opt_filePath o) (opt_repository o))
    as [[]|e] eqn:Hv.
  - destruct (validate_ok_stat _ _ _ Hv) as (_ & _ & _ & st & Hst & _).
    destruct (parseRepository (opt_repository o)) as [parsed|e] eqn:Hp.
    + right. exists parsed, st. repeat split; try assumption.
      apply uploadImage_online; try assumption.
      unfold getFileSize. now rewrite Hst.
    + left. exists e. rewrite uploadImage_local_steps, Hv, Hp. split; [reflexivity |].
      unfold parseRepository in Hp.
      destruct (Regex.search (opt_repository o)) as [[? ?]|]; [discriminate |].
      destruct (Js.split "/" (opt_repository o)) as [|? [|? [|? ?]]];
        inversion Hp; simpl; tauto.
  - left. exists e. rewrite uploadImage_local_steps, Hv. split; [reflexivity |].
    unfold validateUploadInput in Hv.
    repeat match type of Hv with
           | (if ?c then _ else _) = _ => destruct c
           end; inversion Hv; simpl; tauto.
Qed.

Lemma getGitHubToken_run (w : world) :
  calls (getGitHubToken w) = [token_call] /\
  match exit_stdout (spawn w "gh" ["auth"; "token"]) with
  | Some token => outcome (getGitHubToken w) = Ok token
  | None => thrown (outcome (getGitHubToken w)) = Some AuthenticationFailed
  end.
Proof.
  unfold getGitHubToken, try_catch, bind, execCommand, ret, throw, exit_stdout.
  destruct (spawn w "gh" ["auth"; "token"]) as [[[| |]|] out err|msg];
    simpl; split; reflexivity.
Qed.

Lemma getRepositoryId_run (w : world) (owner repo : string) :
  calls (getRepositoryId owner repo w) = [resolver_call owner repo] /\
  match exit_stdout (spawn w "gh" (resolver_args owner repo)) with
  | Some out => outcome (getRepositoryId owner repo w) = Ok (Value.parseInt out)
  | None =>
      thrown (outcome (getRepositoryId owner repo w))
      = Some RepositoryResolutionFailed
  end.
Proof.
  unfold getRepositoryId, try_catch, bind, execCommand, ret, throw, exit_stdout,
    resolver_call, resolver_args.
  destruct (spawn w "gh" _) as [[[| |]|] out err|msg];
    simpl; split; reflexivity.
Qed.

Lemma requestUploadPolicy_run (w : world) (token : string) (id : number)
    (fileName : string) (size : Z) (mimeType : string) :
  let req := policy_request token id fileName size mimeType in
  let run := requestUploadPolicy token id fileName size mimeType w in
  calls run = [Fetched req] /\
  match fetch w req with
  | Responded r =>
      if response_ok r then outcome run = response_json r
      else thrown (outcome run) = Some PolicyRequestFailed
  | Rejected _ => thrown (outcome run) = Some RuntimeError
  end.
Proof.
  unfold requestUploadPolicy, bind, do_fetch, lift, throw.
  destruct (fetch w _) as [r|msg]; simpl; [| split; reflexivity].
  destruct (response_ok r); simpl; split; reflexivity.
Qed.

(** ** Conversions to a string *)

Lemma ToString_converts (v : value) :
  Value.converts v = true -> Value.ToString v = Ok (Value.to_string v).
Proof. unfold Value.ToString. now intros ->. Qed.

Lemma ToString_ok (v : value) (s : string) :
  Value.ToString v = Ok s -> Value.converts v = true /\ s = Value.to_string v.
Proof.
  unfold Value.ToString. destruct (Value.converts v); [| discriminate].
  intros [= <-]. now split.
Qed.

Lemma ToString_throw (v : value) (e : js_error) :
  Value.ToString v = Throw e ->
  Value.converts v = false /\
  e = Value.type_error "Cannot convert object to primitive value".
Proof.
  unfold Value.ToString. destruct (Value.converts v); [discriminate |].
  intros [= <-]. now split.
Qed.

Lemma absent_converts (v : value) :
  Value.is_absent v = true -> Value.converts v = true.
Proof. now destruct v. Qed.

Lemma append_entries_ok (entries : list (string * value)) :
  all_convert entries = true ->
  append_entries entries = Ok (form_fields entries).
Proof.
  induction entries as [|[k v] rest IH]; [reflexivity |].
  unfold all_convert. cbn [forallb snd]. intros H.
  apply andb_prop in H as [Hv Hrest].
  cbn [append_entries]. rewrite (ToString_converts v Hv), (IH Hrest).
  reflexivity.
Qed.

Lemma append_entries_throw (entries : list (string * value)) :
  all_convert entries = false ->
  append_entries entries
  = Throw (Value.type_error "Cannot convert object to primitive value").
Proof.
  induction entries as [|[k v] rest IH]; [discriminate |].
  unfold all_convert. cbn [forallb snd append_entries]. unfold Value.ToString.
  destruct (Value.converts v); [| reflexivity].
  cbn [andb]. intros H. now rewrite (IH H).
Qed.

Lemma append_entries_cases (entries : list (string * value)) :
  (all_convert entries = true /\
   append_entries entries = Ok (form_fields entries))
  \/ (all_convert entries = false /\
      append_entries entries
      = Throw (Value.type_error "Cannot convert object to primitive value")).
Proof.
  destruct (all_convert entries) eqn:E.
  - left. split; [reflexivity | now apply append_entries_ok].
  - right. split; [reflexivity | now apply append_entries_throw].
Qed.

Lemma get_throw (v : value) (k : string) (e : js_error) :
  Value.get v k = Throw e -> kind e = RuntimeError.
Proof. destruct v; simpl; intros H; inversion H; reflexivity. Qed.

Lemma entries_throw (v : value) (e : js_error) :
  Value.entries v = Throw e -> kind e = RuntimeError.
Proof. destruct v; simpl; intros H; inversion H; reflexivity. Qed.

(** ** The storage step, step by step *)

(** What the storage step does, by what it finds: the request it sends is
    made of the upload URL, the fields of the form and the file. *)
Lemma uploadFileToStorage_steps (w : world) (policy : value)
    (filePath fileName mimeType : string) :
  let run := uploadFileToStorage policy filePath fileName mimeType w in
  (calls run = [] /\ thrown (outcome run) = Some RuntimeError /\
   (fs_readFileSync w filePath = None
    \/ (exists e, Value.get policy "form" = Throw e)
    \/ (exists form e,
          Value.get policy "form" = Ok form /\ Value.entries form = Throw e)
    \/ (exists form entries,
          Value.get policy "form" = Ok form /\
          Value.entries form = Ok entries /\ all_convert entries = false)
    \/ (exists upload_url,
          Value.get policy "upload_url" = Ok upload_url /\
          Value.converts upload_url = false)))
  \/
  (exists content form entries upload_url,
      fs_readFileSync w filePath = Some content /\
      Value.get policy "form" = Ok form /\
      Value.entries form = Ok entries /\
      all_convert entries = true /\
      Value.get policy "upload_url" = Ok upload_url /\
      Value.converts upload_url = true /\
      let req :=
        storage_request (Value.to_string upload_url) (form_fields entries)
          content fileName mimeType in
      calls run = [Fetched req] /\
      outcome run =
      match fetch w req with
      | Rejected msg => Throw (Value.type_error msg)
      | Responded r =>
          if response_ok r then Ok tt
          else Throw (mkError UploadFailed
                        ("Failed to upload file: "
                           ++ Js.string_of_Z (status r) ++ " "
                           ++ statusText r ++ ". " ++ text r))
      end).
Proof.
  unfold uploadFileToStorage, bind, readFileSync, lift, do_fetch, throw, ret.
  destruct (fs_readFileSync w filePath) as [content|]; simpl;
    [| left; repeat split; now left].
  destruct (Value.get policy "form") as [form|e] eqn:Hf; simpl.
  2:{ left. split; [reflexivity | split].
      - now rewrite (get_throw _ _ _ Hf).
      - right. left. now exists e. }
  destruct (Value.entries form) as [entries|e] eqn:He; simpl.
  2:{ left. split; [reflexivity | split].
      - now rewrite (entries_throw _ _ He).
      - right. right. left. now exists form, e. }
  destruct (append_entries_cases entries) as [[Hc ->] | [Hc ->]]; simpl.
  2:{ left. split; [reflexivity | split; [reflexivity |]].
      right. right. right. left. now exists form, entries. }
  destruct (Value.get policy "upload_url") as [u|e] eqn:Hu; simpl.
  2:{ destruct policy; simpl in Hf, Hu; discriminate. }
  unfold Value.ToString. destruct (Value.converts u) eqn:Cu; simpl.
  2:{ left. split; [reflexivity | split; [reflexivity |]].
      right. right. right. right. now exists u. }
  right. exists content, form, entries, u.
  repeat (split; [reflexivity || assumption |]).
  destruct (fetch w _) as [r|msg]; simpl; [| now split].
  unfold response_ok.
  destruct ((200 <=? status r) && (status r <=? 299))%Z eqn:E; simpl;
    [now split |].
  assert ((status r =? 201)%Z = false /\ (status r =? 204)%Z = false) as [-> ->].
  { apply andb_false_iff in E. split; apply Z.eqb_neq; intros H; rewrite H in E;
      destruct E; discriminate. }
  now split.
Qed.

(** The storage step sends at most one request and throws the upload error
    or a runtime error. *)
Lemma uploadFileToStorage_run (w : world) (policy : value)
    (filePath fileName mimeType : string) :
  let run := uploadFileToStorage policy filePath fileName mimeType w in
  match outcome run with
  | Ok _ => exists req, calls run = [Fetched req]
  | Throw e => kind e = RuntimeError \/ kind e = UploadFailed
  end.
Proof.
  intros run.
  destruct (uploadFileToStorage_steps w policy filePath fileName mimeType)
    as [(_ & T & _) | (content & form & entries & u & _ & _ & _ & _ & _ & _ & H)];
    fold run in T || (cbv zeta in H; fold run in H).
  - destruct (outcome run) as [[]|e]; [discriminate |].
    left. simpl in T. congruence.
  - destruct H as [C O]. rewrite O.
    destruct (fetch w _) as [r|msg]; [| now left].
    destruct (response_ok r); [eauto | now right].
Qed.

Lemma policy_asset_id_get (policy a : value) :
  policy_asset_id policy = Ok a ->
  exists u, Value.get policy "upload_url" = Ok u.
Proof.
  unfold policy_asset_id.
  destruct policy; simpl; try discriminate; eauto.
Qed.

Lemma policy_asset_id_throw (policy : value) (e : js_error) :
  policy_asset_id policy = Throw e -> kind e = RuntimeError.
Proof.
  unfold policy_asset_id, Value.get_opt.
  destruct policy; simpl; try (intros H; inversion H; reflexivity);
    try discriminate.
  destruct (Js.lookup "asset" props) as [[]|]; simpl; intros H;
    inversion H; reflexivity.
Qed.

Lemma printable_asset_id_some (policy a : value) :
  printable_asset_id policy = Some a ->
  policy_asset_id policy = Ok a /\ Value.converts a = true /\
  exists u, Value.get policy "upload_url" = Ok u /\ Value.converts u = true.
Proof.
  unfold printable_asset_id.
  destruct (Value.get policy "upload_url") as [u|?]; [| discriminate].
  destruct (policy_asset_id policy) as [a'|?]; [| discriminate].
  destruct (Value.converts u) eqn:Cu; [| discriminate].
  destruct (Value.converts a') eqn:Ca; [| discriminate].
  intros [= <-]. repeat split; try assumption. now exists u.
Qed.

(** How the online steps run, step by step: which calls are made and how
    the run ends, by the answers of the world. *)
Lemma online_steps_run (w : world) (filePath : string)
    (parsed : ParsedRepository) (size : Z) :
  let fileName := Path.basename filePath in
  let mimeType := getMimeType filePath in
  let run := online_steps filePath parsed size w in
  match exit_stdout (spawn w "gh" ["auth"; "token"]) with
  | None =>
      calls run = [token_call] /\
      thrown (outcome run) = Some AuthenticationFailed
  | Some token =>
      let resolver := resolver_call (owner parsed) (repo parsed) in
      match exit_stdout
              (spawn w "gh" (resolver_args (owner parsed) (repo parsed))) with
      | None =>
          calls run = [token_call; resolver] /\
          thrown (outcome run) = Some RepositoryResolutionFailed
      | Some out =>
          let req :=
            policy_request token (Value.parseInt out) fileName size mimeType in
          let sent := [token_call; resolver; Fetched req] in
          match fetch w req with
          | Rejected _ =>
              calls run = sent /\ thrown (outcome run) = Some RuntimeError
          | Responded r =>
              if response_ok r then
                match json r with
                | None =>
                    calls run = sent /\
                    thrown (outcome run) = Some RuntimeError
                | Some policy =>
                    match printable_asset_id policy with
                    | None =>
                        calls run = sent /\
                        thrown (outcome run) = Some RuntimeError
                    | Some a =>
                        let storage :=
                          uploadFileToStorage policy filePath fileName
                            mimeType w in
                        calls run = (sent ++ calls storage)%list /\
                        match outcome storage with
                        | Throw e => outcome run = Throw e
                        | Ok _ =>
                            outcome run =
                            Ok {| url := CDN_PREFIX ++ Value.to_string a;
                                  assetId := a;
                                  fileName := fileName;
                                  fileSize := size;
                                  mimeType := mimeType;
                                  repository :=
                                    owner parsed ++ "/" ++ repo parsed;
                                  dryMode := false |}
                        end
                    end
                end
              else
                calls run = sent /\
                thrown (outcome run) = Some PolicyRequestFailed
          end
      end
  end.
Proof.
  intros fileName mimeType run.
  assert (R : run = online_steps filePath parsed size w) by reflexivity.
  clearbody run. unfold online_steps, bind in R. fold fileName mimeType in R.
  pose proof (getGitHubToken_run w) as [C1 O1]. revert R C1 O1.
  destruct (getGitHubToken w) as [t1 r1]. simpl. intros R -> O1.
  destruct (exit_stdout (spawn w "gh" ["auth"; "token"])) as [token|].
  2:{ destruct r1 as [?|e1]; [discriminate | subst run; now split]. }
  subst r1.
  pose proof (getRepositoryId_run w (owner parsed) (repo parsed)) as [C2 O2].
  revert R C2 O2.
  destruct (getRepositoryId (owner parsed) (repo parsed) w) as [t2 r2].
  simpl. intros R -> O2.
  destruct (exit_stdout (spawn w "gh" _)) as [out|].
  2:{ destruct r2 as [?|e2]; [discriminate | subst run; now split]. }
  subst r2.
  pose proof (requestUploadPolicy_run w token (Value.parseInt out) fileName
                size mimeType) as [C3 O3].
  revert R C3 O3.
  destruct (requestUploadPolicy token (Value.parseInt out) fileName size
              mimeType w) as [t3 r3].
  simpl. intros R -> O3.
  destruct (fetch w _) as [r|msg].
  2:{ destruct r3 as [?|e3]; [discriminate | subst run; now split]. }
  destruct (response_ok r).
  2:{ destruct r3 as [?|e3]; [discriminate | subst run; now split]. }
  subst r3. unfold response_json in R.
  destruct (json r) as [policy|]; [| subst run; now split].
  unfold lift, printable_asset_id, Value.ToString in *.
  destruct (Value.get policy "upload_url") as [u|e'] eqn:Hu.
  2:{ subst run. simpl. split; [reflexivity |].
      now rewrite (get_throw _ _ _ Hu). }
  destruct (Value.converts u) eqn:Cu.
  2:{ subst run. simpl.
      destruct (policy_asset_id policy); now split. }
  destruct (policy_asset_id policy) as [a|e] eqn:Ha.
  2:{ subst run. simpl. split; [reflexivity |].
      now rewrite (policy_asset_id_throw _ _ Ha). }
  destruct (Value.converts a) eqn:Ca.
  2:{ subst run. simpl. now split. }
  cbn [andb]. revert R.
  destruct (uploadFileToStorage policy filePath fileName mimeType w)
    as [t4 [[]|e4]]; simpl; intros ->; simpl; rewrite ?app_nil_r;
    now split.
Qed.

(** Once the policy is received and past the debug lines, the run ends as
    the storage step ends, and a successful run returns the asset id read
    from the policy. *)
Lemma uploadImage_after_policy (w : world) (o : options)
    (parsed : ParsedRepository) (st : stat) (token out : string)
    (r : response) (policy a : value) :
  policy_received w o parsed st token out r policy ->
  printable_asset_id policy = Some a ->
  let fileName := Path.basename (opt_filePath o) in
  let mimeType := getMimeType (opt_filePath o) in
  let storage :=
    uploadFileToStorage policy (opt_filePath o) fileName mimeType w in
  calls (uploadImage o w) =
  ([token_call; resolver_call (owner parsed) (repo parsed);
    Fetched (policy_request token (Value.parseInt out) fileName (st_size st)
               mimeType)] ++ calls storage)%list /\
  match outcome storage with
  | Throw e => outcome (uploadImage o w) = Throw e
  | Ok _ =>
      outcome (uploadImage o w) =
      Ok {| url := CDN_PREFIX ++ Value.to_string a;
            assetId := a;
            fileName := fileName;
            fileSize := st_size st;
            mimeType := mimeType;
            repository := owner parsed ++ "/" ++ repo parsed;
            dryMode := false |}
  end.
Proof.
  intros (Hd & Hv & Hp & Hst & Ht & Ho & Hf & Hok & Hj) Ha.
  intros fileName mimeType storage.
  rewrite (uploadImage_online o w parsed (st_size st) Hd Hv Hp)
    by (unfold getFileSize; now rewrite Hst).
  pose proof (online_steps_run w (opt_filePath o) parsed (st_size st)) as H.
  cbv zeta in H. rewrite Ht, Ho, Hf, Hok, Hj, Ha in H.
  exact H.
Qed.


(** A successful run that is not dry has received a policy and returns the
    asset id read from it. *)
Lemma uploadImage_success_inv (w : world) (o : options) (t : list event)
    (res : UploadResult) :
  opt_dryMode o = false ->
  uploadImage o w = (t, Ok res) ->
  exists parsed st token out r policy,
    policy_received w o parsed st token out r policy /\
    policy_asset_id policy = Ok (assetId res) /\
    url res = CDN_PREFIX ++ Value.to_string (assetId res) /\
    dryMode res = false /\
    printable_asset_id policy = Some (assetId res).
Proof.
  intros Hd Hrun.
  destruct (uploadImage_cases o w Hd) as [(e & He & _) | (parsed & st & Hv & Hp & Hst & E)].
  { rewrite He in Hrun. discriminate. }
  pose proof (online_steps_run w (opt_filePath o) parsed (st_size st)) as H.
  cbv zeta in H. rewrite <- E, Hrun in H. simpl in H. revert H.
  destruct (exit_stdout (spawn w "gh" ["auth"; "token"])) as [token|] eqn:Ht;
    [| intros []; discriminate].
  destruct (exit_stdout
              (spawn w "gh" (resolver_args (owner parsed) (repo parsed))))
    as [out|] eqn:Ho; [| intros []; discriminate].
  destruct (fetch w _) as [r|msg] eqn:Hf; [| intros []; discriminate].
  destruct (response_ok r) eqn:Hok; [| intros []; discriminate].
  destruct (json r) as [policy|] eqn:Hj; [| intros []; discriminate].
  destruct (printable_asset_id policy) as [a|] eqn:Ha;
    [| intros []; discriminate].
  intros [_ H]. revert H.
  destruct (outcome (uploadFileToStorage _ _ _ _ w)); [| discriminate].
  intros H.
  inversion H; subst res; simpl.
  exists parsed, st, token, out, r, policy.
  destruct (printable_asset_id_some _ _ Ha) as (Ha' & _).
  repeat split; assumption.
Qed.

(** C1, as the claim states it, fails: a run that is not dry succeeds
    without an asset id when the policy response has none. *)
Lemma upload_without_asset_id :
  outcome (uploadImage (Scenario.request_for false "o/r")
             (Scenario.make Scenario.id_42
                (Scenario.json_response 200 Scenario.policy_without_asset)
                Scenario.no_content))
  = Ok {| url := "https://github.com/user-attachments/assets/undefined";
          assetId := VUndefined;
          fileName := "shot.png";
          fileSize := 10;
          mimeType := "image/png";
          repository := "o/r";
          dryMode := false |}.
Proof. reflexivity. Qed.

(** C1, amended. Every result [uploadImage] returns is of one of two
    shapes.  A dry-run result has no asset id and the placeholder URL made
    of its file name and repository, and no call was made for it.  Any other
    result carries the asset id read from the policy response, which is
    absent when the response has none; when it is not absent, the URL is the
    CDN prefix followed by that asset id. *)
Theorem upload_result_invariant (w : world) (o : options) (t : list event)
    (res : UploadResult) :
  uploadImage o w = (t, Ok res) ->
  (dryMode res = true /\ opt_dryMode o = true /\ t = [] /\
   assetId res = VNull /\
   url res = "[DRY MODE] Would upload " ++ fileName res ++ " to "
               ++ repository res)
  \/
  (dryMode res = false /\ opt_dryMode o = false /\
   exists parsed st token out r policy,
     policy_received w o parsed st token out r policy /\
     policy_asset_id policy = Ok (assetId res) /\
     (Value.is_absent (assetId res) = false ->
      url res = CDN_PREFIX ++ Value.to_string (assetId res))).
Proof.
  intros Hrun. destruct (opt_dryMode o) eqn:Hd.
  - left. rewrite uploadImage_local_steps, Hd in Hrun.
    destruct (validateUploadInput _ _ _) as [[]|?]; [| discriminate].
    destruct (parseRepository _) as [parsed|?]; [| discriminate].
    destruct (getFileSize _ _) as [size|?]; [| discriminate].
    inversion Hrun; subst. simpl. repeat split; reflexivity.
  - right.
    destruct (uploadImage_success_inv w o t res Hd Hrun)
      as (parsed & st & token & out & r & policy & Hr & Ha & Hu & Hdry & _).
    split; [exact Hdry | split; [reflexivity |]].
    exists parsed, st, token, out, r, policy.
    split; [exact Hr | split; [exact Ha | intros _; exact Hu]].
Qed.

Lemma upload_result_invariant_witness :
  (false = true /\ false = true /\
   calls (uploadImage (Scenario.request_for false "o/r")
            (Scenario.make Scenario.id_42
               (Scenario.json_response 200 Scenario.full_policy)
               Scenario.no_content)) = [] /\
   VStr "abc123" = VNull /\
   "https://github.com/user-attachments/assets/abc123"
   = "[DRY MODE] Would upload " ++ "shot.png" ++ " to " ++ "o/r")
  \/
  (false = false /\ false = false /\
   exists parsed st token out r policy,
     policy_received
       (Scenario.make Scenario.id_42
          (Scenario.json_response 200 Scenario.full_policy)
          Scenario.no_content)
       (Scenario.request_for false "o/r") parsed st token out r policy /\
     policy_asset_id policy = Ok (VStr "abc123") /\
     (Value.is_absent (VStr "abc123") = false ->
      "https://github.com/user-attachments/assets/abc123"
      = CDN_PREFIX ++ Value.to_string (VStr "abc123"))).
Proof.
  exact (upload_result_invariant
           (Scenario.make Scenario.id_42
              (Scenario.json_response 200 Scenario.full_policy)
              Scenario.no_content)
           (Scenario.request_for false "o/r")
           (calls (uploadImage (Scenario.request_for false "o/r")
                     (Scenario.make Scenario.id_42
                        (Scenario.json_response 200 Scenario.full_policy)
                        Scenario.no_content)))
           {| url := "https://github.com/user-attachments/assets/abc123";
              assetId := VStr "abc123";
              fileName := "shot.png";
              fileSize := 10;
              mimeType := "image/png";
              repository := "o/r";
              dryMode := false |}
           eq_refl).
Defined.

Lemma validate_throw_kind (w : world) (filePath repository : string)
    (e : js_error) :
  validateUploadInput w filePath repository = Throw e ->
  In (kind e) [MissingArgument; FileNotFound; UnsupportedExtension].
Proof.
  unfold validateUploadInput. intros H.
  repeat match type of H with
         | (if ?c then _ else _) = _ => destruct c
         end; inversion H; simpl; tauto.
Qed.

Lemma parse_throw_kind (repository : string) (e : js_error) :
  parseRepository repository = Throw e -> kind e = InvalidReference.
Proof.
  unfold parseRepository. intros H.
  destruct (Regex.search repository) as [[? ?]|]; [discriminate |].
  destruct (Js.split "/" repository) as [|? [|? [|? ?]]];
    inversion H; reflexivity.
Qed.

(** A dry run ends in the local steps. *)
Lemma dry_run_outcome (w : world) (o : options) :
  opt_dryMode o = true ->
  calls (uploadImage o w) = [] /\
  thrown (outcome (uploadImage o w)) <> Some PolicyRequestFailed /\
  thrown (outcome (uploadImage o w)) <> Some RepositoryResolutionFailed.
Proof.
  intros Hd. rewrite uploadImage_local_steps, Hd.
  destruct (validateUploadInput _ _ _) as [[]|e] eqn:Hv.
  - destruct (validate_ok_stat _ _ _ Hv) as (_ & _ & _ & st & Hst & _).
    unfold getFileSize. rewrite Hst.
    destruct (parseRepository _) as [parsed|e] eqn:Hp; simpl.
    + repeat split; discriminate.
    + rewrite (parse_throw_kind _ _ Hp). repeat split; discriminate.
  - simpl. pose proof (validate_throw_kind _ _ _ _ Hv) as H. simpl in H.
    repeat split; intros E; inversion E as [E']; rewrite E' in H;
      intuition discriminate.
Qed.




(** ** Decimal numerals *)

Lemma digits_prefix_acc (d : Decimal.uint) (acc : positive) :
  Value.digits_prefix (NilEmpty.string_of_uint d) (Some (Z.pos acc))
  = Some (Z.pos (Pos.of_uint_acc d acc)).
Proof.
  revert acc; induction d; intros acc;
    cbn [NilEmpty.string_of_uint Value.digits_prefix Pos.of_uint_acc];
    [reflexivity | ..];
    (match goal with
     | |- context [Value.is_digit ?c] => change (Value.is_digit c) with true
     end; cbv iota; rewrite <- IHd; do 2 f_equal;
     match goal with
     | |- context [Value.digit_value ?c] =>
         let v := eval vm_compute in (Value.digit_value c) in
         change (Value.digit_value c) with v
     end; lia).
Qed.

Lemma digits_prefix_zero (d : Decimal.uint) :
  Value.digits_prefix (NilEmpty.string_of_uint d) (Some 0%Z)
  = Some (Z.of_N (Pos.of_uint d)).
Proof.
  induction d;
    cbn [NilEmpty.string_of_uint Value.digits_prefix Pos.of_uint];
    try reflexivity; try exact IHd;
    (match goal with
     | |- context [Value.is_digit ?c] => change (Value.is_digit c) with true
     end; cbv iota; cbn [Z.of_N]; rewrite <- digits_prefix_acc; reflexivity).
Qed.

Lemma parseInt_digits (c : ascii) (s : string) :
  Value.is_digit c = true ->
  Value.parseInt (String c s)
  = match Value.digits_prefix (String c s) None with
    | Some z => Value.of_Z z
    | None => NaN
    end
  /\ Value.parseInt (String "-" (String c s))
    = match Value.digits_prefix (String c s) None with
      | Some z => Value.of_Z (- z)
      | None => NaN
      end.
Proof.
  intros Hc. unfold Value.parseInt.
  assert (Js.is_space c = false /\ Ascii.eqb c "-" = false
          /\ Ascii.eqb c "+" = false) as (Hs & Hm & Hp)
    by (destruct c as [[] [] [] [] [] [] [] []]; try discriminate Hc;
        repeat split; reflexivity).
  split.
  - cbn [Js.trimStart]. rewrite Hs.
    destruct c as [[] [] [] [] [] [] [] []]; try discriminate Hm;
      try discriminate Hp; reflexivity.
  - reflexivity.
Qed.

(** The decimal rendering of a positive number starts with a digit and
    reads back as the number. *)
Lemma string_of_pos (p : positive) :
  exists c s,
    NilZero.string_of_uint (Pos.to_uint p) = String c s /\
    Value.is_digit c = true /\
    Value.digits_prefix (String c s) None = Some (Z.pos p).
Proof.
  pose proof (Unsigned.of_to p) as E.
  pose proof (digits_prefix_zero (Pos.to_uint p)) as D. rewrite E in D.
  unfold NilZero.string_of_uint.
  destruct (Pos.to_uint p) as [|u|u|u|u|u|u|u|u|u|u]; [discriminate | ..];
    eexists _, _; (split; [reflexivity |]); (split; [reflexivity | exact D]).
Qed.

(** Up to 2^53 an integer is a double and prints all its digits. *)
Lemma nearest_safe (a : Z) :
  (0 <= a < 2 ^ 53)%Z -> Double.nearest a = a.
Proof.
  intros Ha. unfold Double.nearest.
  assert (Z.log2 a < 53)%Z.
  { destruct (Z.eq_dec a 0) as [-> | Hz]; [reflexivity |].
    apply Z.log2_lt_pow2; lia. }
  now destruct (Z.leb_spec (Z.log2 a - 52) 0); [| lia].
Qed.

Lemma of_Z_safe (z : Z) :
  (Z.abs z < 2 ^ 53)%Z -> Value.of_Z z = Int z.
Proof.
  intros Hz. unfold Value.of_Z, Double.finite.
  rewrite nearest_safe by lia.
  assert (Z.log2 (Z.abs z) < 53)%Z.
  { destruct (Z.eq_dec (Z.abs z) 0) as [-> | Hn]; [reflexivity |].
    apply Z.log2_lt_pow2; lia. }
  destruct (Z.ltb_spec (Z.log2 (Z.abs z)) 1024); [| lia].
  f_equal. destruct z; simpl; lia.
Qed.

Lemma to_string_safe (z : Z) :
  (Z.abs z < 2 ^ 53)%Z -> Double.to_string z = Js.string_of_Z z.
Proof.
  intros Hz. unfold Double.to_string. rewrite nearest_safe by lia.
  now destruct (Z.ltb_spec (Z.abs z) (2 ^ 53)); [| lia].
Qed.

(** [parseInt] reads back the decimal rendering of an integer, as the
    double nearest to it. *)
Lemma parseInt_string_of_Z (z : Z) :
  Value.parseInt (Js.string_of_Z z) = Value.of_Z z.
Proof.
  unfold Js.string_of_Z. destruct z as [|p|p]; [reflexivity | |];
    destruct (string_of_pos p) as (c & s & E & Hc & D);
    cbn [Z.to_int NilZero.string_of_int]; rewrite E;
    destruct (parseInt_digits c s Hc) as [P N].
  - now rewrite P, D.
  - now rewrite N, D.
Qed.

(** C3, as the claim states it, fails: output of the resolver that is no
    number is not an error.  [parseInt] turns it into [NaN], which goes into
    the policy request, and the run goes on.  Nor does every number go
    through unchanged: [parseInt] returns a double, so an id beyond 2^53
    can come out as its neighbour. *)
Lemma resolver_output_not_numeric :
  Value.parseInt "not a number" = NaN
  /\ Value.number_to_string (Value.parseInt "9007199254740993")
     = "9007199254740992"
  /\ thrown (outcome (uploadImage (Scenario.request_for false "o/r")
                        (Scenario.make
                           (Closed (Some 0%Z) "not a number" "")
                           (Scenario.json_response 200 Scenario.full_policy)
                           Scenario.no_content))) = None
  /\ nth_error
       (calls (uploadImage (Scenario.request_for false "o/r")
                 (Scenario.make
                    (Closed (Some 0%Z) "not a number" "")
                    (Scenario.json_response 200 Scenario.full_policy)
                    Scenario.no_content))) 2
     = Some (Fetched (policy_request "gho_secret" NaN "shot.png" 10
                        "image/png")).
Proof. repeat split; reflexivity. Qed.

Lemma exit_stdout_failed (p : proc_outcome) :
  (exists msg, p = SpawnError msg)
  \/ (exists stdout stderr, p = Closed None stdout stderr)
  \/ (exists c stdout stderr, p = Closed (Some c) stdout stderr /\ c <> 0%Z) ->
  exit_stdout p = None.
Proof.
  intros [(msg & ->) | [(out & err & ->) | (c & out & err & -> & Hc)]];
    try reflexivity.
  destruct c; [contradiction | reflexivity | reflexivity].
Qed.

(** C3, amended. When the run reaches the resolver and the resolver cannot
    be spawned, is killed or exits with a code other than 0, [uploadImage]
    throws the resolution error and sends no request.  When the resolver
    exits with code 0, the resolution error is not thrown, whatever the
    output: the policy request carries, as [repository_id], the rendering of
    what [parseInt] makes of the output, [NaN] included.  An id below 2^53
    that the resolver prints in decimal is read exactly and reaches the
    request digit for digit. *)
Theorem resolver_failure_and_id (w : world) (o : options)
    (parsed : ParsedRepository) (st : stat) (token : string) :
  opt_dryMode o = false ->
  validateUploadInput w (opt_filePath o) (opt_repository o) = Ok tt ->
  parseRepository (opt_repository o) = Ok parsed ->
  fs_statSync w (opt_filePath o) = Some st ->
  exit_stdout (spawn w "gh" ["auth"; "token"]) = Some token ->
  let resolver := spawn w "gh" (resolver_args (owner parsed) (repo parsed)) in
  let resolver_event := resolver_call (owner parsed) (repo parsed) in
  ((exists msg, resolver = SpawnError msg)
   \/ (exists stdout stderr, resolver = Closed None stdout stderr)
   \/ (exists c stdout stderr,
          resolver = Closed (Some c) stdout stderr /\ c <> 0%Z) ->
   calls (uploadImage o w) = [token_call; resolver_event] /\
   thrown (outcome (uploadImage o w)) = Some RepositoryResolutionFailed)
  /\
  (forall stdout stderr,
      resolver = Closed (Some 0%Z) stdout stderr ->
      let req :=
        policy_request token (Value.parseInt (Js.trim stdout))
          (Path.basename (opt_filePath o)) (st_size st)
          (getMimeType (opt_filePath o)) in
      thrown (outcome (uploadImage o w)) <> Some RepositoryResolutionFailed /\
      nth_error (calls (uploadImage o w)) 2 = Some (Fetched req) /\
      req_body req =
      UrlEncoded
        [ ("name", Path.basename (opt_filePath o));
          ("size", Double.to_string (st_size st));
          ("content_type", getMimeType (opt_filePath o));
          ("repository_id",
           Value.number_to_string (Value.parseInt (Js.trim stdout))) ] /\
      (forall z : Z,
          (Z.abs z < 2 ^ 53)%Z ->
          Js.trim stdout = Js.string_of_Z z ->
          Value.parseInt (Js.trim stdout) = Int z /\
          Value.number_to_string (Value.parseInt (Js.trim stdout))
          = Js.trim stdout)).
Proof.
  intros Hd Hv Hp Hst Ht resolver resolver_event.
  rewrite (uploadImage_online o w parsed (st_size st) Hd Hv Hp)
    by (unfold getFileSize; now rewrite Hst).
  pose proof (online_steps_run w (opt_filePath o) parsed (st_size st)) as R.
  cbv zeta in R. rewrite Ht in R. fold resolver in R.
  split.
  - intros Hfail. apply exit_stdout_failed in Hfail.
    rewrite Hfail in R. exact R.
  - intros stdout stderr Hres req.
    rewrite Hres in R. simpl in R. fold req in R.
    split; [| split; [| split; [reflexivity |]]]; revert R.
    3:{ intros _ z Hz E.
        rewrite E, parseInt_string_of_Z, (of_Z_safe z Hz).
        split; [reflexivity | now apply to_string_safe]. }
    + destruct (fetch w req) as [r|msg]; [| intros [_ R]; congruence].
      destruct (response_ok r); [| intros [_ R]; congruence].
      destruct (json r) as [policy|]; [| intros [_ R]; congruence].
      destruct (printable_asset_id policy) as [a|];
        [| intros [_ R]; congruence].
      intros [_ R]. revert R.
      pose proof (uploadFileToStorage_run w policy (opt_filePath o)
                    (Path.basename (opt_filePath o))
                    (getMimeType (opt_filePath o))) as S.
      cbv zeta in S. revert S.
      destruct (outcome (uploadFileToStorage _ _ _ _ w)) as [[]|e];
        intros S R; rewrite R; simpl; [discriminate |].
      intros H. inversion H as [H']. rewrite H' in S. destruct S; discriminate.
    + destruct (fetch w req) as [r|msg]; [| now intros [-> _]].
      destruct (response_ok r); [| now intros [-> _]].
      destruct (json r) as [policy|]; [| now intros [-> _]].
      destruct (printable_asset_id policy) as [a|]; [| now intros [-> _]].
      now intros [-> _].
Qed.

Lemma resolver_failure_and_id_witness :
  (calls (uploadImage (Scenario.request_for false "o/r")
            (Scenario.make (Closed (Some 1%Z) "" "HTTP 404: Not Found")
               (Scenario.json_response 200 Scenario.full_policy)
               Scenario.no_content))
   = [token_call; resolver_call "o" "r"] /\
   thrown (outcome (uploadImage (Scenario.request_for false "o/r")
                      (Scenario.make (Closed (Some 1%Z) "" "HTTP 404: Not Found")
                         (Scenario.json_response 200 Scenario.full_policy)
                         Scenario.no_content)))
   = Some RepositoryResolutionFailed)
  /\ nth_error
       (calls (uploadImage (Scenario.request_for false "o/r")
                 (Scenario.make Scenario.id_42
                    (Scenario.json_response 200 Scenario.full_policy)
                    Scenario.no_content))) 2
     = Some (Fetched (policy_request "gho_secret" (Int 42) "shot.png" 10
                        "image/png")).
Proof.
  split.
  - apply (proj1 (resolver_failure_and_id
                    (Scenario.make (Closed (Some 1%Z) "" "HTTP 404: Not Found")
                       (Scenario.json_response 200 Scenario.full_policy)
                       Scenario.no_content)
                    (Scenario.request_for false "o/r")
                    (mkRepo "o" "r") (mkStat true 10) "gho_secret"
                    eq_refl eq_refl eq_refl eq_refl eq_refl)).
    right. right. exists 1%Z, "", "HTTP 404: Not Found".
    split; [reflexivity | discriminate].
  - exact (proj1 (proj2 (proj2 (resolver_failure_and_id
                    (Scenario.make Scenario.id_42
                       (Scenario.json_response 200 Scenario.full_policy)
                       Scenario.no_content)
                    (Scenario.request_for false "o/r")
                    (mkRepo "o" "r") (mkStat true 10) "gho_secret"
                    eq_refl eq_refl eq_refl eq_refl eq_refl)
                    ("42" ++ Scenario.newline) "" eq_refl))).
Defined.

(** * Further properties *)

(** ** Tables and references *)

(** A file is allowed exactly when its MIME type is a specific one: the
    allow-list and the keys of the MIME table are the same extensions, so
    the generic binary type is never computed for a file that passes
    validation. *)
Theorem allowed_iff_specific_mime (filePath : string) :
  isExtensionAllowed filePath
  = negb (String.eqb (getMimeType filePath) "application/octet-stream").
Proof.
  unfold isExtensionAllowed, getMimeType.
  set (ext := Js.toLowerCase (Path.extname filePath)). clearbody ext.
  destruct (Js.includes ALLOWED_EXTENSIONS ext) eqn:E.
  - apply includes_In in E. simpl in E.
    repeat (destruct E as [E | E]; [rewrite <- E; reflexivity |]).
    contradiction.
  - destruct (Js.lookup ext MIME_TYPES) as [m|] eqn:L; [| reflexivity].
    apply lookup_In in L.
    assert (In ext ALLOWED_EXTENSIONS) as H by (simpl in L |- *; tauto).
    apply includes_In in H. congruence.
Qed.

Lemma split_no_separator (sep : ascii) (s seg : string) :
  In seg (Js.split sep s) -> has_char sep seg = false.
Proof.
  revert seg; induction s as [|c s IH]; intros seg H; simpl in H.
  - destruct H as [<- | []]. reflexivity.
  - destruct (Ascii.eqb c sep) eqn:E.
    + destruct H as [<- | H]; [reflexivity | now apply IH].
    + destruct (Js.split sep s) as [|seg0 rest].
      * destruct H as [<- | []]. simpl. now rewrite E.
      * destruct H as [<- | H].
        -- simpl. rewrite E. apply IH. now left.
        -- apply IH. now right.
Qed.

Lemma join_split (sep : ascii) (s : string) :
  Js.join (String sep "") (Js.split sep s) = s.
Proof.
  induction s as [|c s IH]; [reflexivity |].
  simpl. destruct (Ascii.eqb_spec c sep) as [-> |].
  - destruct (Js.split sep s) as [|seg rest] eqn:E.
    + simpl in IH. now subst.
    + simpl. now rewrite <- IH.
  - destruct (Js.split sep s) as [|seg rest] eqn:E.
    + simpl in IH. now subst.
    + rewrite <- IH. now destruct rest.
Qed.

(** Whatever [parseRepository] returns can be put into the API path
    [repos/owner/repo]: neither part holds a ['/'].  A reference taken by the
    fallback is returned as it is: owner, ['/'] and repo spell the input.  A
    reference taken by the URL pattern has a non-empty owner and repo. *)
Theorem parseRepository_parts (s : string) (p : ParsedRepository) :
  parseRepository s = Ok p ->
  has_char "/" (owner p) = false /\ has_char "/" (repo p) = false /\
  match Regex.search s with
  | None => owner p ++ "/" ++ repo p = s
  | Some _ => String.eqb (owner p) "" = false /\ String.eqb (repo p) "" = false
  end.
Proof.
  unfold parseRepository.
  destruct (Regex.search s) as [[o r]|] eqn:Hs.
  - intros H. inversion H; subst; simpl.
    apply search_sound in Hs as (pre & t & _ & Ht).
    apply match_at_sound in Ht
      as (sep & rest & _ & _ & Ho & Hos & Hr & Hrs & _ & _).
    repeat split; try assumption.
    + now destruct o.
    + now destruct r.
  - pose proof (join_split "/" s) as J.
    pose proof (split_no_separator "/" s) as N.
    destruct (Js.split "/" s) as [|p0 [|p1 [|p2 l]]]; try discriminate.
    intros H. inversion H; subst; simpl.
    split; [apply N; now left |].
    split; [apply N; right; now left | first [exact J | reflexivity]].
Qed.

Lemma parseRepository_parts_witness :
  has_char "/" "link-foundation" = false /\
  has_char "/" "gh-upload-image" = false /\
  String.eqb "link-foundation" "" = false /\
  String.eqb "gh-upload-image" "" = false.
Proof.
  exact (parseRepository_parts
           "https://github.com/link-foundation/gh-upload-image/issues/1"
           (mkRepo "link-foundation" "gh-upload-image") eq_refl).
Defined.

(** ** The calls of a run *)

Lemma exit_stdout_some (p : proc_outcome) (t : string) :
  exit_stdout p = Some t ->
  exists stdout stderr, p = Closed (Some 0%Z) stdout stderr /\ t = Js.trim stdout.
Proof.
  destruct p as [[[| |]|] out err|msg]; simpl; try discriminate.
  intros H. inversion H. now exists out, err.
Qed.

Lemma all_space_trimEnd (s : string) :
  Js.all_space s = false -> Js.all_space (Js.trimEnd s) = false.
Proof.
  induction s as [|c s IH]; [discriminate |].
  intros H. cbn [Js.trimEnd]. rewrite H. simpl in H |- *.
  destruct (Js.is_space c); [| reflexivity].
  simpl in H |- *. now apply IH.
Qed.

Lemma trimEnd_idem (s : string) : Js.trimEnd (Js.trimEnd s) = Js.trimEnd s.
Proof.
  induction s as [|c s IH]; [reflexivity |].
  cbn [Js.trimEnd]. destruct (Js.all_space (String c s)) eqn:E; [reflexivity |].
  cbn [Js.trimEnd].
  assert (Js.all_space (String c (Js.trimEnd s)) = false) as ->.
  { simpl in E |- *. destruct (Js.is_space c); [| reflexivity].
    simpl in E |- *. now apply all_space_trimEnd. }
  now rewrite IH.
Qed.

Lemma trimStart_trimEnd (s : string) :
  Js.trimStart (Js.trimEnd (Js.trimStart s)) = Js.trimEnd (Js.trimStart s).
Proof.
  induction s as [|c s IH]; [reflexivity |].
  cbn [Js.trimStart]. destruct (Js.is_space c) eqn:E; [exact IH |].
  cbn [Js.trimEnd]. destruct (Js.all_space (String c s)); [reflexivity |].
  cbn [Js.trimStart]. now rewrite E.
Qed.

(** What [trim] returns has no white space left to trim. *)
Lemma trim_idem (s : string) : Js.trim (Js.trim s) = Js.trim s.
Proof.
  unfold Js.trim. now rewrite trimStart_trimEnd, trimEnd_idem.
Qed.

(** The calls of a run, by how far it gets. *)
Lemma calls_shape (w : world) (o : options) :
  calls (uploadImage o w) = [] \/
  exists parsed st,
    opt_dryMode o = false /\ local_steps_pass w o parsed st /\
    (calls (uploadImage o w) = [token_call] \/
     exists token,
       exit_stdout (spawn w "gh" ["auth"; "token"]) = Some token /\
       (calls (uploadImage o w)
        = [token_call; resolver_call (owner parsed) (repo parsed)] \/
        exists out,
          exit_stdout
            (spawn w "gh" (resolver_args (owner parsed) (repo parsed)))
          = Some out /\
          (calls (uploadImage o w)
           = [token_call; resolver_call (owner parsed) (repo parsed);
              Fetched (policy_request_of o st token out)] \/
           exists r policy content form entries upload_url,
             fetch w (policy_request_of o st token out) = Responded r /\
             response_ok r = true /\ json r = Some policy /\
             fs_readFileSync w (opt_filePath o) = Some content /\
             Value.get policy "form" = Ok form /\
             Value.entries form = Ok entries /\
             all_convert entries = true /\
             Value.get policy "upload_url" = Ok upload_url /\
             Value.converts upload_url = true /\
             calls (uploadImage o w)
             = [token_call; resolver_call (owner parsed) (repo parsed);
                Fetched (policy_request_of o st token out);
                Fetched (storage_request (Value.to_string upload_url)
                           (form_fields entries) content
                           (Path.basename (opt_filePath o))
                           (getMimeType (opt_filePath o)))]))).
Proof.
  destruct (opt_dryMode o) eqn:Hd.
  { left. now destruct (dry_run_outcome w o Hd). }
  destruct (uploadImage_cases o w Hd)
    as [(e & He & _) | (parsed & st & Hv & Hp & Hst & E)].
  { left. now rewrite He. }
  right. exists parsed, st. split; [reflexivity |].
  split; [now repeat split |].
  pose proof (online_steps_run w (opt_filePath o) parsed (st_size st)) as R.
  cbv zeta in R. rewrite <- E in R. revert R.
  destruct (exit_stdout (spawn w "gh" ["auth"; "token"])) as [token|];
    [| intros [R _]; now left].
  intros R. right. exists token. split; [reflexivity |]. revert R.
  destruct (exit_stdout
              (spawn w "gh" (resolver_args (owner parsed) (repo parsed))))
    as [out|]; [| intros [R _]; now left].
  intros R. right. exists out. split; [reflexivity |]. revert R.
  unfold policy_request_of.
  destruct (fetch w _) as [r|msg] eqn:Hf; [| intros [R _]; now left].
  destruct (response_ok r) eqn:Hok; [| intros [R _]; now left].
  destruct (json r) as [policy|] eqn:Hj; [| intros [R _]; now left].
  destruct (printable_asset_id policy) as [a|]; [| intros [R _]; now left].
  intros [R _].
  destruct (uploadFileToStorage_steps w policy (opt_filePath o)
              (Path.basename (opt_filePath o)) (getMimeType (opt_filePath o)))
    as [(C & _) | (content & form & entries & u & H1 & H2 & H3 & H4 & H5 & H6 & H7)].
  - left. rewrite R, C. reflexivity.
  - right. cbv zeta in H7. destruct H7 as [C _].
    exists r, policy, content, form, entries, u.
    repeat (split; [reflexivity || assumption |]).
    rewrite R, C. reflexivity.
Qed.

(** No retry and a fixed order: the calls of a run are the first [n] of the
    token call, the resolver call, the policy request and the storage
    request, for some [n] from 0 to 4.  A call is made only when the steps
    before it succeeded: the local steps before the first, the token before
    the second, the resolver before the third; before the fourth, the policy
    endpoint answered 2xx with a body that parses and the file was read.
    The storage request is then the one that policy describes: it goes to
    its upload URL, with the fields of its form and the file, and has no
    header. *)
Theorem calls_in_fixed_order (w : world) (o : options) :
  exists (parsed : ParsedRepository) (st : stat) (token out : string)
         (storage : request) (n : nat),
    (n <= 4)%nat /\
    calls (uploadImage o w)
    = firstn n [token_call;
                resolver_call (owner parsed) (repo parsed);
                Fetched (policy_request_of o st token out);
                Fetched storage] /\
    ((1 <= n)%nat -> opt_dryMode o = false /\ local_steps_pass w o parsed st) /\
    ((2 <= n)%nat ->
     exit_stdout (spawn w "gh" ["auth"; "token"]) = Some token) /\
    ((3 <= n)%nat ->
     exit_stdout (spawn w "gh" (resolver_args (owner parsed) (repo parsed)))
     = Some out) /\
    ((4 <= n)%nat ->
     exists r policy content form entries upload_url,
       fetch w (policy_request_of o st token out) = Responded r /\
       response_ok r = true /\ json r = Some policy /\
       fs_readFileSync w (opt_filePath o) = Some content /\
       Value.get policy "form" = Ok form /\
       Value.entries form = Ok entries /\
       Value.get policy "upload_url" = Ok upload_url /\
       storage =
       {| req_url := Value.to_string upload_url;
          req_method := "POST";
          req_headers := [];
          req_body :=
            FormData
              (map (fun kv => (fst kv, Field (Value.to_string (snd kv))))
                 entries
                 ++ [("file", Blob content (getMimeType (opt_filePath o))
                                (Path.basename (opt_filePath o)))])%list |}).
Proof.
  pose (dummy := mkRequest "" "" [] (FormData [])).
  destruct (calls_shape w o)
    as [C | (parsed & st & Hd & Hl &
             [C | (token & Ht & [C | (out & Ho & [C | H])])])];
    try (assert (Hl' := Hl); destruct Hl' as (Hv & Hp & Hst)).
  - exists (mkRepo "" ""), (mkStat false 0), "", "", dummy, 0%nat.
    repeat split; intros; try lia; exact C.
  - exists parsed, st, "", "", dummy, 1%nat.
    repeat split; intros; try lia; assumption.
  - exists parsed, st, token, "", dummy, 2%nat.
    repeat split; intros; try lia; assumption.
  - exists parsed, st, token, out, dummy, 3%nat.
    repeat split; intros; try lia; assumption.
  - destruct H as (r & policy & content & form & entries & u
                   & H1 & H2 & H3 & H4 & H5 & H6 & _ & H8 & _ & C).
    eexists parsed, st, token, out, _, 4%nat.
    split; [lia |]. split; [exact C |].
    repeat (split; [intros; (assumption || (split; assumption)) |]).
    intros _. exists r, policy, content, form, entries, u.
    repeat (split; [assumption |]). reflexivity.
Qed.

(** The credential goes to the policy endpoint only.  A request of a run
    either has no header at all, or is the policy request; its
    [Authorization] header is the word [token] followed by the standard
    output of [gh auth token], trimmed, so without a trailing line break. *)
Theorem credential_only_in_policy_request (w : world) (o : options)
    (req : request) :
  In (Fetched req) (calls (uploadImage o w)) ->
  req_headers req = [] \/
  (req_url req = POLICY_URL /\
   exists stdout stderr,
     spawn w "gh" ["auth"; "token"] = Closed (Some 0%Z) stdout stderr /\
     Js.lookup "Authorization" (req_headers req)
     = Some ("token " ++ Js.trim stdout) /\
     Js.trim (Js.trim stdout) = Js.trim stdout).
Proof.
  intros Hin.
  assert (P : forall st token out,
             exit_stdout (spawn w "gh" ["auth"; "token"]) = Some token ->
             Fetched (policy_request_of o st token out) = Fetched req ->
             req_url req = POLICY_URL /\
             exists stdout stderr,
               spawn w "gh" ["auth"; "token"] = Closed (Some 0%Z) stdout stderr /\
               Js.lookup "Authorization" (req_headers req)
               = Some ("token " ++ Js.trim stdout) /\
               Js.trim (Js.trim stdout) = Js.trim stdout).
  { intros st token out Ht H. inversion H; subst req. split; [reflexivity |].
    apply exit_stdout_some in Ht as (stdout & stderr & Hs & ->).
    exists stdout, stderr. split; [exact Hs |].
    split; [reflexivity | apply trim_idem]. }
  destruct (calls_shape w o)
    as [C | (parsed & st & _ & _ &
             [C | (token & Ht & [C | (out & _ & [C | H])])])].
  - rewrite C in Hin. contradiction.
  - rewrite C in Hin. destruct Hin as [H | []]. discriminate.
  - rewrite C in Hin. destruct Hin as [H | [H | []]]; discriminate.
  - rewrite C in Hin. destruct Hin as [H | [H | [H | []]]]; try discriminate.
    right. exact (P st token out Ht H).
  - destruct H as (r & policy & content & form & entries & u
                   & _ & _ & _ & _ & _ & _ & _ & _ & _ & C).
    rewrite C in Hin.
    destruct Hin as [H | [H | [H | [H | []]]]]; try discriminate.
    + right. exact (P st token out Ht H).
    + left. now inversion H.
Qed.

Lemma credential_only_in_policy_request_witness :
  req_headers
    (policy_request "gho_secret" (Int 42) "shot.png" 10 "image/png") = [] \/
  (POLICY_URL = POLICY_URL /\
   exists stdout stderr,
     Scenario.gh Scenario.id_42 "gh" ["auth"; "token"]
     = Closed (Some 0%Z) stdout stderr /\
     Js.lookup "Authorization"
       (req_headers
          (policy_request "gho_secret" (Int 42) "shot.png" 10 "image/png"))
     = Some ("token " ++ Js.trim stdout) /\
     Js.trim (Js.trim stdout) = Js.trim stdout).
Proof.
  apply (credential_only_in_policy_request
           (Scenario.make Scenario.id_42
              (Scenario.json_response 200 Scenario.full_policy)
              Scenario.no_content)
           (Scenario.request_for false "o/r")
           (policy_request "gho_secret" (Int 42) "shot.png" 10 "image/png")).
  right. right. left. reflexivity.
Defined.

(** ** Failures of the online steps *)

(** When [gh auth token] fails, the run ends after that one call with the
    authentication error.  Its message ends with the standard error of the
    tool, trimmed, or, when that is empty, with the exit code; with the
    message of the spawn error when the tool cannot be started.  The
    standard output of a failed tool is not looked at. *)
Theorem authentication_failure (w : world) (o : options)
    (parsed : ParsedRepository) (st : stat) :
  opt_dryMode o = false ->
  local_steps_pass w o parsed st ->
  let advice :=
    "Failed to get GitHub token. Make sure you are logged in with "
      ++ dquote ++ "gh auth login" ++ dquote ++ ". " in
  (forall c stdout stderr,
      spawn w "gh" ["auth"; "token"] = Closed (Some c) stdout stderr ->
      c <> 0%Z ->
      uploadImage o w =
      ([token_call],
       Throw (mkError AuthenticationFailed
                (advice ++
                 if String.eqb (Js.trim stderr) ""
                 then "Command failed with exit code " ++ Js.string_of_Z c
                 else Js.trim stderr))))
  /\
  (forall msg,
      spawn w "gh" ["auth"; "token"] = SpawnError msg ->
      uploadImage o w =
      ([token_call], Throw (mkError AuthenticationFailed (advice ++ msg)))).
Proof.
  intros Hd (Hv & Hp & Hst) advice.
  rewrite (uploadImage_online o w parsed (st_size st) Hd Hv Hp)
    by (unfold getFileSize; now rewrite Hst).
  unfold online_steps, bind at 1, getGitHubToken, try_catch, bind, execCommand,
    throw, ret.
  split.
  - intros c stdout stderr -> Hc.
    destruct c as [|c|c]; [contradiction | reflexivity | reflexivity].
  - intros msg ->. reflexivity.
Qed.

Lemma authentication_failure_witness :
  uploadImage (Scenario.request_for false "o/r") Scenario.offline =
  ([token_call],
   Throw (mkError AuthenticationFailed
            ("Failed to get GitHub token. Make sure you are logged in with "
               ++ dquote ++ "gh auth login" ++ dquote ++ ". "
               ++ "spawn gh ENOENT"))).
Proof.
  refine (proj2 (authentication_failure Scenario.offline
                   (Scenario.request_for false "o/r") (mkRepo "o" "r")
                   (mkStat true 10) eq_refl _)
            "spawn gh ENOENT" eq_refl).
  repeat split.
Defined.

(** When the policy endpoint answers with a status outside 200..299, the
    run ends after the policy request, so the storage endpoint is never
    contacted, and it throws the policy error, whose message carries the
    status, the status text and the body of the response as they are. *)
Theorem policy_request_rejected (w : world) (o : options)
    (parsed : ParsedRepository) (st : stat) (token out : string)
    (r : response) :
  opt_dryMode o = false ->
  local_steps_pass w o parsed st ->
  exit_stdout (spawn w "gh" ["auth"; "token"]) = Some token ->
  exit_stdout (spawn w "gh" (resolver_args (owner parsed) (repo parsed)))
  = Some out ->
  fetch w (policy_request_of o st token out) = Responded r ->
  response_ok r = false ->
  uploadImage o w =
  ([token_call; resolver_call (owner parsed) (repo parsed);
    Fetched (policy_request_of o st token out)],
   Throw (mkError PolicyRequestFailed
            ("Failed to get upload policy: " ++ Js.string_of_Z (status r)
               ++ " " ++ statusText r ++ ". " ++ text r))).
Proof.
  intros Hd (Hv & Hp & Hst) Ht Ho Hf Hok.
  rewrite (uploadImage_online o w parsed (st_size st) Hd Hv Hp)
    by (unfold getFileSize; now rewrite Hst).
  apply exit_stdout_some in Ht as (o1 & e1 & Ht & ->).
  apply exit_stdout_some in Ho as (o2 & e2 & Ho & ->).
  unfold policy_request_of in Hf.
  unfold online_steps, bind at 1, getGitHubToken, try_catch, bind, execCommand,
    ret. rewrite Ht.
  cbv beta iota. unfold getRepositoryId, try_catch, bind, execCommand, ret.
  fold (resolver_args (owner parsed) (repo parsed)). rewrite Ho.
  cbv beta iota. unfold requestUploadPolicy, bind, do_fetch. rewrite Hf.
  cbv beta iota. rewrite Hok. reflexivity.
Qed.

Lemma policy_request_rejected_witness :
  uploadImage (Scenario.request_for false "o/r")
    (Scenario.make Scenario.id_42 Scenario.forbidden Scenario.no_content) =
  ([token_call; resolver_call "o" "r";
    Fetched (policy_request "gho_secret" (Int 42) "shot.png" 10 "image/png")],
   Throw (mkError PolicyRequestFailed
            "Failed to get upload policy: 403 Forbidden. Bad credentials")).
Proof.
  refine (policy_request_rejected
            (Scenario.make Scenario.id_42 Scenario.forbidden Scenario.no_content)
            (Scenario.request_for false "o/r") (mkRepo "o" "r") (mkStat true 10)
            "gho_secret" "42"
            (mkResponse 403 "Forbidden" "Bad credentials" None)
            eq_refl _ eq_refl eq_refl eq_refl eq_refl).
  repeat split.
Defined.

(** ** The storage step *)

(** With a readable file and a policy that has a form and an upload URL,
    the storage step turns the values of the form and the upload URL into
    strings.  When they all convert, it sends one request: to the upload
    URL, without headers, with the fields of the form in their order and the
    file last under the name [file]; it succeeds exactly when the status is
    in 200..299 (the separate tests for 201 and 204 add nothing) and
    otherwise throws the upload error with the status, the status text and
    the body of the response.  When one of them does not convert, it sends
    nothing and throws the type error of the conversion. *)
Theorem storage_step (w : world) (policy form upload_url : value)
    (entries : list (string * value))
    (filePath fileName mimeType content : string) :
  fs_readFileSync w filePath = Some content ->
  Value.get policy "form" = Ok form ->
  Value.entries form = Ok entries ->
  Value.get policy "upload_url" = Ok upload_url ->
  let req :=
    {| req_url := Value.to_string upload_url;
       req_method := "POST";
       req_headers := [];
       req_body :=
         FormData
           (map (fun kv => (fst kv, Field (Value.to_string (snd kv)))) entries
              ++ [("file", Blob content mimeType fileName)])%list |} in
  let convertible :=
    forallb (fun kv => Value.converts (snd kv)) entries
    && Value.converts upload_url in
  (convertible = true ->
   uploadFileToStorage policy filePath fileName mimeType w =
   ([Fetched req],
    match fetch w req with
    | Rejected msg => Throw (Value.type_error msg)
    | Responded r =>
        if ((200 <=? status r) && (status r <=? 299))%Z then Ok tt
        else Throw (mkError UploadFailed
                      ("Failed to upload file: " ++ Js.string_of_Z (status r)
                         ++ " " ++ statusText r ++ ". " ++ text r))
    end))
  /\
  (convertible = false ->
   uploadFileToStorage policy filePath fileName mimeType w =
   ([], Throw (Value.type_error "Cannot convert object to primitive value"))).
Proof.
  intros Hr Hf He Hu req convertible.
  unfold uploadFileToStorage, bind, readFileSync, lift, do_fetch, throw, ret.
  rewrite Hr, Hf, He. cbv beta iota.
  split; intros C; unfold convertible in C.
  - apply andb_prop in C as [Ce Cu].
    rewrite (append_entries_ok entries Ce), Hu, (ToString_converts _ Cu).
    cbv beta iota.
    change (storage_request (Value.to_string upload_url) (form_fields entries)
              content fileName mimeType) with req.
    destruct (fetch w req) as [r|msg]; [| reflexivity].
    cbv beta iota. unfold response_ok.
    destruct ((200 <=? status r) && (status r <=? 299))%Z eqn:E;
      [reflexivity |].
    assert ((status r =? 201)%Z = false /\ (status r =? 204)%Z = false)
      as [-> ->].
    { apply andb_false_iff in E.
      split; apply Z.eqb_neq; intros H; rewrite H in E;
        destruct E; discriminate. }
    reflexivity.
  - apply andb_false_iff in C as [Ce | Cu].
    + now rewrite (append_entries_throw entries Ce).
    + destruct (append_entries_cases entries) as [[_ ->] | [_ ->]];
        [| reflexivity].
      cbv beta iota. rewrite Hu. unfold Value.ToString. now rewrite Cu.
Qed.

Lemma storage_step_witness :
  uploadFileToStorage Scenario.full_policy Scenario.png_path "shot.png"
    "image/png"
    (Scenario.make Scenario.id_42
       (Scenario.json_response 200 Scenario.full_policy) Scenario.no_content)
  = ([Fetched
        {| req_url := "https://store/x";
           req_method := "POST";
           req_headers := [];
           req_body :=
             FormData [("k", Field "v");
                       ("file", Blob "0123456789" "image/png" "shot.png")] |}],
     Ok tt)
  /\
  uploadFileToStorage
    (VObj [ ("upload_url", VStr "https://store/x");
            ("form", VObj [("k", VObj [("toString", VNull)])]) ])
    Scenario.png_path "shot.png" "image/png"
    (Scenario.make Scenario.id_42
       (Scenario.json_response 200 Scenario.full_policy) Scenario.no_content)
  = ([], Throw (Value.type_error "Cannot convert object to primitive value")).
Proof.
  split.
  - exact (proj1 (storage_step
             (Scenario.make Scenario.id_42
                (Scenario.json_response 200 Scenario.full_policy)
                Scenario.no_content)
             Scenario.full_policy (VObj [("k", VStr "v")])
             (VStr "https://store/x")
             [("k", VStr "v")] Scenario.png_path "shot.png" "image/png"
             "0123456789" eq_refl eq_refl eq_refl eq_refl) eq_refl).
  - exact (proj2 (storage_step
             (Scenario.make Scenario.id_42
                (Scenario.json_response 200 Scenario.full_policy)
                Scenario.no_content)
             (VObj [ ("upload_url", VStr "https://store/x");
                     ("form", VObj [("k", VObj [("toString", VNull)])]) ])
             (VObj [("k", VObj [("toString", VNull)])])
             (VStr "https://store/x")
             [("k", VObj [("toString", VNull)])] Scenario.png_path "shot.png"
             "image/png" "0123456789" eq_refl eq_refl eq_refl eq_refl) eq_refl).
Defined.

(** The storage step sends no request when the file cannot be read, and
    none when the policy has no form: [Object.entries] of [undefined] or
    [null] is a type error. *)
Theorem storage_step_sends_nothing (w : world) (policy : value)
    (filePath fileName mimeType : string) :
  (fs_readFileSync w filePath = None \/
   exists form, Value.get policy "form" = Ok form /\
                Value.is_absent form = true) ->
  calls (uploadFileToStorage policy filePath fileName mimeType w) = [] /\
  thrown (outcome (uploadFileToStorage policy filePath fileName mimeType w))
  = Some RuntimeError.
Proof.
  unfold uploadFileToStorage, bind, readFileSync, lift, do_fetch, throw, ret.
  intros [Hr | (form & Hf & Ha)].
  - rewrite Hr. now split.
  - destruct (fs_readFileSync w filePath); [| now split].
    rewrite Hf. destruct form; try discriminate; now split.
Qed.

Lemma storage_step_sends_nothing_witness :
  calls (uploadFileToStorage (VObj [("upload_url", VStr "https://store/x")])
           Scenario.png_path "shot.png" "image/png"
           (Scenario.make Scenario.id_42
              (Scenario.json_response 200 Scenario.full_policy)
              Scenario.no_content)) = [] /\
  thrown (outcome (uploadFileToStorage
                     (VObj [("upload_url", VStr "https://store/x")])
                     Scenario.png_path "shot.png" "image/png"
                     (Scenario.make Scenario.id_42
                        (Scenario.json_response 200 Scenario.full_policy)
                        Scenario.no_content))) = Some RuntimeError.
Proof.
  apply storage_step_sends_nothing.
  right. exists VUndefined. split; reflexivity.
Defined.

(** ** Dry runs and real runs *)

(** A dry run predicts the local part of the real run on the same file and
    repository: when it throws, the real run throws the same error before
    any call; and a result of the real run has the file name, size, MIME
    type and repository that the dry run reports. *)
Theorem dry_run_predicts (w : world) (path reference : string)
    (verbose verbose' : bool) :
  let dry := uploadImage (mkOptions path reference verbose true) w in
  let real := uploadImage (mkOptions path reference verbose' false) w in
  (forall e, outcome dry = Throw e -> real = ([], Throw e))
  /\ (forall r,
         outcome real = Ok r ->
         exists d,
           outcome dry = Ok d /\ dryMode d = true /\ dryMode r = false /\
           fileName d = fileName r /\ fileSize d = fileSize r /\
           mimeType d = mimeType r /\
           repository d = repository r).
Proof.
  intros dry real. split.
  - intros e. unfold dry, real.
    rewrite (uploadImage_local_steps (mkOptions path reference verbose true)).
    rewrite (uploadImage_local_steps (mkOptions path reference verbose' false)).
    simpl.
    destruct (validateUploadInput w path reference) as [[]|?];
      [| now intros [= ->]].
    destruct (parseRepository reference) as [parsed|?]; [| now intros [= ->]].
    destruct (getFileSize w path) as [size|?]; [| now intros [= ->]].
    discriminate.
  - intros r Hr. unfold real in Hr.
    destruct (uploadImage (mkOptions path reference verbose' false) w)
      as [t res] eqn:Hrun. simpl in Hr. subst res.
    destruct (uploadImage_success_inv w
                (mkOptions path reference verbose' false) t r eq_refl Hrun)
      as (parsed & st & token & out & resp & policy & Hrec & _ & _ & Hdry & Ha).
    destruct (uploadImage_after_policy w _ parsed st token out resp policy _
                Hrec Ha) as [_ Hout].
    rewrite Hrun in Hout. simpl in Hout.
    destruct Hrec as (_ & Hv & Hp & Hst & _). simpl in Hv, Hp, Hst.
    unfold dry. rewrite uploadImage_local_steps. simpl.
    rewrite Hv, Hp. unfold getFileSize. rewrite Hst.
    eexists. split; [reflexivity |]. simpl.
    destruct (outcome (uploadFileToStorage _ _ _ _ w)); [| discriminate].
    injection Hout as ->. simpl. repeat split.
Qed.

(** ** File sizes of one terabyte and more *)

Lemma append_assoc (a b c : string) : (a ++ b) ++ c = a ++ b ++ c.
Proof. induction a as [|x a IH]; [reflexivity |]. simpl. now rewrite IH. Qed.

Lemma two_digits_spec (m : Z) :
  (0 <= m < 100)%Z ->
  two_digits m = String (digit_char (m / 10)) (String (digit_char (m mod 10)) "").
Proof.
  intros H. rewrite <- (Z2Nat.id m) by lia.
  assert (K : (Z.to_nat m < 100)%nat) by lia.
  revert K. generalize (Z.to_nat m) as k. intros k.
  do 100 (destruct k as [|k]; [reflexivity |]). lia.
Qed.

(** Below 10^21, [toFixed(2)] prints the nearest hundredth with all the
    digits of its integer part, a point and exactly two decimals. *)
Lemma toFixed2_two_decimals (num den : Z) :
  (0 < den)%Z -> (0 <= num < 10 ^ 21 * den)%Z ->
  exists n : Z,
    rounds_to n num den /\
    toFixed2 num den
    = Js.string_of_Z (n / 100) ++ "."
        ++ String (digit_char (n mod 100 / 10))
             (String (digit_char (n mod 10)) "").
Proof.
  intros Hden Hnum. exists (hundredths num den). split.
  - now apply hundredths_rounds.
  - unfold toFixed2.
    destruct (Z.leb_spec (10 ^ 21 * den) num) as [Hle |]; [lia |].
    unfold render_hundredths.
    rewrite two_digits_spec by (apply Z.mod_pos_bound; lia).
    replace (hundredths num den mod 100 mod 10)%Z
      with (hundredths num den mod 10)%Z
      by (generalize (hundredths num den); intros h;
          Z.div_mod_to_equations; lia).
    reflexivity.
Qed.

Section FormatFileSizeCap.

Variable floor_log_ratio : Z -> Z.



End FormatFileSizeCap.


(** ** File sizes, by the unit index

    Which unit [formatFileSize] picks is decided by the floor of a quotient
    of two logarithms, which the engine computes in double precision.  What
    it prints once that index is known is decided by the code. *)

Section FormatFileSizeIndex.

Variable floor_log_ratio : Z -> Z.

Lemma formatFileSize_index (b k : Z) (unit : string) :
  (0 < b)%Z -> floor_log_ratio b = k -> (1 <= k <= 4)%Z ->
  nth (Z.to_nat k) units "undefined" = unit ->
  formatFileSize floor_log_ratio b = toFixed2 b (1024 ^ k) ++ " " ++ unit.
Proof.
  intros Hb Hk K Hu. unfold formatFileSize.
  destruct (Z.eqb_spec b 0) as [-> |]; [lia |].
  rewrite Hk. change (Z.of_nat (List.length units) - 1)%Z with 4%Z.
  rewrite Z.min_l by lia.
  destruct (Z.eqb_spec k 0); [lia |].
  now rewrite Hu.
Qed.

(** For a positive byte count whose floored logarithm quotient is [k]: with
    [k = 0] the count is printed as it is, without decimals, followed by
    [B]; with [k] from 1 to 3 it is divided by 1024^k, rounded to the
    nearest hundredth (the larger on a tie) and printed with exactly two
    decimals, followed by [KB], [MB] or [GB]. *)
Theorem formatFileSize_by_index (b k : Z) :
  (0 < b < 2 ^ 53)%Z -> floor_log_ratio b = k ->
  (k = 0%Z -> formatFileSize floor_log_ratio b = Js.string_of_Z b ++ " B")
  /\ (forall unit : string,
         In (k, unit) [(1, "KB"); (2, "MB"); (3, "GB")]%Z ->
         exists n : Z,
           rounds_to n b (1024 ^ k) /\
           formatFileSize floor_log_ratio b
           = Js.string_of_Z (n / 100) ++ "."
               ++ String (digit_char (n mod 100 / 10))
                    (String (digit_char (n mod 10)) "")
               ++ " " ++ unit).
Proof.
  intros Hb Hk. split.
  - intros K. unfold formatFileSize.
    destruct (Z.eqb_spec b 0) as [-> |]; [lia |].
    rewrite Hk, K. cbn. now rewrite to_string_safe by lia.
  - intros unit Hin.
    assert (K : (1 <= k <= 3)%Z /\ nth (Z.to_nat k) units "undefined" = unit).
    { simpl in Hin.
      repeat (destruct Hin as [Hin | Hin];
              [inversion Hin; subst; split; [lia | reflexivity] |]).
      contradiction. }
    destruct K as [K Hu].
    assert (P : (0 < 1024 ^ k)%Z) by (apply Z.pow_pos_nonneg; lia).
    assert (B : (2 ^ 53 < 10 ^ 21)%Z) by reflexivity.
    destruct (toFixed2_two_decimals b (1024 ^ k) P) as (n & Hn & E); [nia |].
    exists n. split; [exact Hn |].
    rewrite (formatFileSize_index b k unit); try assumption; try lia.
    rewrite E. now rewrite append_assoc.
Qed.

End FormatFileSizeIndex.

Lemma formatFileSize_by_index_witness :
  formatFileSize exact_floor_log 500 = "500 B"
  /\ exists n : Z,
       rounds_to n 1536 (1024 ^ 1) /\
       formatFileSize exact_floor_log 1536 = "1.50 KB".
Proof.
  split.
  - exact (proj1 (formatFileSize_by_index exact_floor_log 500 0
                    ltac:(lia) eq_refl) eq_refl).
  - destruct (proj2 (formatFileSize_by_index exact_floor_log 1536 1
                       ltac:(lia) eq_refl) "KB" (or_introl eq_refl))
      as (n & Hn & E).
    exists n. split; [exact Hn |]. rewrite E.
    assert (n = 150%Z) as -> by (unfold rounds_to in Hn; lia).
    reflexivity.
Defined.

(** ** Markdown *)

(** A file that passes validation has a name. *)
Lemma allowed_basename (filePath : string) :
  isExtensionAllowed filePath = true -> Path.basename filePath <> "".
Proof.
  unfold isExtensionAllowed, Path.extname. intros H E. rewrite E in H.
  discriminate.
Qed.

(** What a successful run was called with and what it calls the file. *)
Lemma uploadImage_ok_file (w : world) (o : options) (t : list event)
    (r : UploadResult) :
  uploadImage o w = (t, Ok r) ->
  exists st,
    validateUploadInput w (opt_filePath o) (opt_repository o) = Ok tt /\
    fs_statSync w (opt_filePath o) = Some st /\
    fileName r = Path.basename (opt_filePath o) /\
    fileSize r = st_size st /\
    dryMode r = opt_dryMode o.
Proof.
  intros Hrun. destruct (opt_dryMode o) eqn:Hd.
  - rewrite uploadImage_local_steps, Hd in Hrun.
    destruct (validateUploadInput _ _ _) as [[]|?] eqn:Hv; [| discriminate].
    destruct (validate_ok_stat _ _ _ Hv) as (_ & _ & _ & st & Hst & _).
    destruct (parseRepository _) as [parsed|?]; [| discriminate].
    unfold getFileSize in Hrun. rewrite Hst in Hrun.
    injection Hrun as <- <-. now exists st.
  - destruct (uploadImage_success_inv w o t r Hd Hrun)
      as (parsed & st & token & out & resp & policy & Hrec & _ & _ & Hdry & Ha).
    destruct (uploadImage_after_policy w o parsed st token out resp policy _
                Hrec Ha) as [_ Hout].
    rewrite Hrun in Hout. simpl in Hout.
    destruct Hrec as (_ & Hv & Hp & Hst & _).
    exists st. revert Hout.
    destruct (outcome (uploadFileToStorage _ _ _ _ w)); [| discriminate].
    intros [= ->]. now repeat split.
Qed.

(** A value that is not true converts to a string. *)
Lemma falsy_converts (v : value) : truthy v = false -> Value.converts v = true.
Proof. now destruct v. Qed.

(** The markdown of a result that has a file name. *)
Lemma generateMarkdown_named (r : UploadResult) (altText : value) :
  String.eqb (fileName r) "" = false ->
  generateMarkdown (result_object r) altText
  = if Value.converts altText then
      Ok ("![" ++ (if truthy altText then Value.to_string altText
                   else fileName r)
            ++ "](" ++ url r ++ ")")
    else Throw (Value.type_error "Cannot convert object to primitive value").
Proof.
  intros E. unfold generateMarkdown, result_object. simpl.
  destruct (truthy altText) eqn:T.
  - unfold Value.ToString. now destruct (Value.converts altText).
  - rewrite (falsy_converts _ T).
    destruct (fileName r); [discriminate | reflexivity].
Qed.

(** The asset id of a result converts to a string. *)
Lemma uploadImage_ok_asset (w : world) (o : options) (t : list event)
    (r : UploadResult) :
  uploadImage o w = (t, Ok r) -> Value.converts (assetId r) = true.
Proof.
  intros Hrun. destruct (opt_dryMode o) eqn:Hd.
  - rewrite uploadImage_local_steps, Hd in Hrun.
    destruct (validateUploadInput _ _ _) as [[]|?]; [| discriminate].
    destruct (parseRepository _) as [parsed|?]; [| discriminate].
    destruct (getFileSize _ _) as [size|?]; [| discriminate].
    now injection Hrun as <- <-.
  - destruct (uploadImage_success_inv w o t r Hd Hrun)
      as (parsed & st & token & out & resp & policy & _ & _ & _ & _ & Ha).
    now destruct (printable_asset_id_some _ _ Ha) as (_ & C & _).
Qed.

Lemma uploadImage_ok_named (w : world) (o : options) (t : list event)
    (r : UploadResult) :
  uploadImage o w = (t, Ok r) -> String.eqb (fileName r) "" = false.
Proof.
  intros Hrun.
  destruct (uploadImage_ok_file w o t r Hrun) as (st & Hv & _ & Hn & _).
  destruct (validate_ok_stat _ _ _ Hv) as (_ & _ & Ha & _).
  apply allowed_basename in Ha. rewrite <- Hn in Ha.
  now apply String.eqb_neq.
Qed.

(** For a result of [uploadImage], [generateMarkdown] never falls back to
    the word [image]: the alternative text is the given one when it is true,
    otherwise (absent or empty) the file name, which is not empty; the
    target is the URL of the result.  It throws only for an alternative
    text that does not convert to a string, which no string and no absent
    value is. *)
Theorem generateMarkdown_of_result (w : world) (o : options)
    (t : list event) (r : UploadResult) (altText : value) :
  uploadImage o w = (t, Ok r) ->
  String.eqb (fileName r) "" = false /\
  generateMarkdown (result_object r) altText
  = (if Value.converts altText then
       Ok ("![" ++ (if truthy altText then Value.to_string altText
                    else fileName r)
             ++ "](" ++ url r ++ ")")
     else Throw (Value.type_error "Cannot convert object to primitive value"))
  /\ (forall s, altText = VStr s -> Value.converts altText = true)
  /\ (Value.is_absent altText = true -> Value.converts altText = true).
Proof.
  intros Hrun. pose proof (uploadImage_ok_named w o t r Hrun) as E.
  split; [exact E |]. split; [now apply generateMarkdown_named |].
  split; [now intros s -> | apply absent_converts].
Qed.

Lemma generateMarkdown_of_result_witness :
  String.eqb "shot.png" "" = false /\
  generateMarkdown
    (result_object
       {| url := "https://github.com/user-attachments/assets/abc123";
          assetId := VStr "abc123";
          fileName := "shot.png";
          fileSize := 10;
          mimeType := "image/png";
          repository := "o/r";
          dryMode := false |}) (VStr "")
  = Ok "![shot.png](https://github.com/user-attachments/assets/abc123)".
Proof.
  refine ((fun H => conj (proj1 H) (proj1 (proj2 H)))
          (generateMarkdown_of_result
           (Scenario.make Scenario.id_42
              (Scenario.json_response 200 Scenario.full_policy)
              Scenario.no_content)
           (Scenario.request_for false "o/r")
           (calls (uploadImage (Scenario.request_for false "o/r")
                     (Scenario.make Scenario.id_42
                        (Scenario.json_response 200 Scenario.full_policy)
                        Scenario.no_content)))
           {| url := "https://github.com/user-attachments/assets/abc123";
              assetId := VStr "abc123";
              fileName := "shot.png";
              fileSize := 10;
              mimeType := "image/png";
              repository := "o/r";
              dryMode := false |}
           (VStr "") eq_refl)).
Defined.

(** ** Command-line arguments *)

Lemma set_flag_fields (f : string) (o : cli_options) :
  set_flag f o =
  {| cli_filePath := cli_filePath o;
     cli_repository := cli_repository o;
     cli_verbose := cli_verbose o || String.eqb f "verbose";
     cli_dryMode := cli_dryMode o || String.eqb f "dryMode";
     cli_markdown := cli_markdown o || String.eqb f "markdown";
     cli_altText := cli_altText o;
     cli_help := cli_help o || String.eqb f "help";
     cli_version := cli_version o || String.eqb f "version" |}.
Proof.
  unfold set_flag. destruct o as [fp rp vb dm md at' hp vs]. simpl.
  repeat (match goal with
          | |- context [String.eqb f ?lit] =>
              destruct (String.eqb_spec f lit) as [-> |]
          end; simpl; rewrite ?orb_true_r, ?orb_false_r; try reflexivity).
Qed.

Lemma set_value_fields (f : string) (v : value) (o : cli_options) :
  set_value f v o =
  {| cli_filePath := cli_filePath o;
     cli_repository := if String.eqb f "repository" then v else cli_repository o;
     cli_verbose := cli_verbose o;
     cli_dryMode := cli_dryMode o;
     cli_markdown := cli_markdown o;
     cli_altText := if String.eqb f "altText" then v else cli_altText o;
     cli_help := cli_help o;
     cli_version := cli_version o |}.
Proof.
  unfold set_value. destruct o as [fp rp vb dm md at' hp vs]. simpl.
  repeat (match goal with
          | |- context [String.eqb f ?lit] =>
              destruct (String.eqb_spec f lit) as [-> |]
          end; simpl; try reflexivity).
Qed.

(** The keys of the two tables start with a dash and are no inherited
    names; no key is in both tables. *)
Lemma boolean_key (k : string) :
  has_key k BOOLEAN_FLAGS = true ->
  startsWith_dash k = true /\ has_key k VALUE_FLAGS = false /\
  Js.includes OBJECT_PROTOTYPE k = false.
Proof.
  unfold has_key. simpl.
  repeat (match goal with
          | |- context [String.eqb k ?lit] =>
              destruct (String.eqb_spec k lit) as [-> |]; [now repeat split |]
          end).
  discriminate.
Qed.

Lemma value_key (k : string) :
  has_key k VALUE_FLAGS = true ->
  startsWith_dash k = true /\ has_key k BOOLEAN_FLAGS = false /\
  Js.includes OBJECT_PROTOTYPE k = false.
Proof.
  unfold has_key at 1. simpl.
  repeat (match goal with
          | |- context [String.eqb k ?lit] =>
              destruct (String.eqb_spec k lit) as [-> |]; [now repeat split |]
          end).
  discriminate.
Qed.

Lemma has_key_lookup {A : Type} (k : string) (table : list (string * A)) :
  has_key k table = false -> Js.lookup k table = None.
Proof. unfold has_key. now destruct (Js.lookup k table). Qed.

(** One item is one round of the loop, or two for a value flag. *)
Lemma parse_loop_item (it : cli_item) (rest : list string) (o : cli_options) :
  item_ok it = true ->
  parse_loop (tokens it ++ rest) o =
  parse_loop rest
    match it with
    | Flag name =>
        match Js.lookup name BOOLEAN_FLAGS with
        | Some f => set_flag f o
        | None => o
        end
    | Opt name v =>
        match Js.lookup name VALUE_FLAGS with
        | Some f => set_value f (VStr v) o
        | None => o
        end
    | Positional arg =>
        if truthy (cli_filePath o) then o else set_filePath (VStr arg) o
    | Skipped _ => o
    end.
Proof.
  destruct it as [k | k v | p | u]; cbn [item_ok tokens app parse_loop]; intros H.
  - unfold has_key in H. now destruct (Js.lookup k BOOLEAN_FLAGS).
  - destruct (value_key k H) as (_ & Hb & Hi).
    rewrite (has_key_lookup _ _ Hb), Hi.
    unfold has_key in H. now destruct (Js.lookup k VALUE_FLAGS).
  - apply andb_true_iff in H as [H Hi]. apply andb_true_iff in H as [Hd _].
    apply negb_true_iff in Hd, Hi.
    assert (Hb : has_key p BOOLEAN_FLAGS = false).
    { destruct (has_key p BOOLEAN_FLAGS) eqn:E; [| reflexivity].
      apply boolean_key in E as [E _]. congruence. }
    assert (Hv : has_key p VALUE_FLAGS = false).
    { destruct (has_key p VALUE_FLAGS) eqn:E; [| reflexivity].
      apply value_key in E as [E _]. congruence. }
    rewrite (has_key_lookup _ _ Hb), Hi, (has_key_lookup _ _ Hv), Hd.
    simpl. now destruct (truthy (cli_filePath o)).
  - apply andb_true_iff in H as [H Hs]. apply andb_true_iff in H as [Hb Hv].
    apply negb_true_iff in Hb, Hv.
    rewrite (has_key_lookup _ _ Hb), (has_key_lookup _ _ Hv).
    destruct (Js.includes OBJECT_PROTOTYPE u); [reflexivity |].
    rewrite orb_false_r in Hs. now rewrite Hs.
Qed.

(** The loop over a command line of items, from any state. *)
Lemma parse_loop_items (items : list cli_item) (rest : list string)
    (o : cli_options) :
  forallb item_ok items = true ->
  parse_loop (command_line items ++ rest) o =
  parse_loop rest
    {| cli_filePath :=
         if truthy (cli_filePath o) then cli_filePath o
         else first_positional (cli_filePath o) items;
       cli_repository := last_value "repository" (cli_repository o) items;
       cli_verbose := cli_verbose o || flag_given "verbose" items;
       cli_dryMode := cli_dryMode o || flag_given "dryMode" items;
       cli_markdown := cli_markdown o || flag_given "markdown" items;
       cli_altText := last_value "altText" (cli_altText o) items;
       cli_help := cli_help o || flag_given "help" items;
       cli_version := cli_version o || flag_given "version" items |}.
Proof.
  revert o; induction items as [|it items IH]; intros o H.
  - simpl. rewrite !orb_false_r. destruct o.
    cbn. now destruct (truthy cli_filePath0).
  - cbn [forallb] in H. apply andb_true_iff in H as [Hit Hrest].
    cbn [command_line flat_map]. rewrite <- app_assoc.
    rewrite (parse_loop_item it _ o Hit).
    fold (command_line items). rewrite (IH _ Hrest). f_equal.
    destruct it as [k | k v | p | u].
    + cbn [item_ok] in Hit. unfold has_key in Hit.
      cbn [flag_given existsb last_value first_positional].
      destruct (Js.lookup k BOOLEAN_FLAGS) as [f|]; [| discriminate].
      rewrite set_flag_fields. cbn. rewrite !orb_assoc. reflexivity.
    + cbn [item_ok] in Hit. unfold has_key in Hit.
      cbn [flag_given existsb last_value first_positional].
      destruct (Js.lookup k VALUE_FLAGS) as [f|]; [| discriminate].
      rewrite set_value_fields. cbn. reflexivity.
    + cbn [flag_given existsb last_value first_positional orb].
      destruct (truthy (cli_filePath o)) eqn:E; [now rewrite E |].
      cbn. apply andb_true_iff in Hit as [Hit _].
      apply andb_true_iff in Hit as [_ Hp]. apply negb_true_iff in Hp.
      destruct p; [discriminate | reflexivity].
    + reflexivity.
Qed.

(** What [parseArgs] makes of a command line of items: the file path is
    the first positional argument, the repository and the alternative text
    are the values of the last flag given for them, whatever these values
    look like, a boolean option is set when one of its flags occurs, and
    skipped arguments change nothing.  Fields nothing is given for keep
    [null] and [false]. *)
Theorem parseArgs_meaning (items : list cli_item) :
  forallb item_ok items = true ->
  parseArgs (command_line items) =
  {| cli_filePath := first_positional VNull items;
     cli_repository := last_value "repository" VNull items;
     cli_verbose := flag_given "verbose" items;
     cli_dryMode := flag_given "dryMode" items;
     cli_markdown := flag_given "markdown" items;
     cli_altText := last_value "altText" VNull items;
     cli_help := flag_given "help" items;
     cli_version := flag_given "version" items |}.
Proof.
  intros H. unfold parseArgs.
  rewrite <- (app_nil_r (command_line items)).
  now rewrite (parse_loop_items items [] initial_options H).
Qed.

Lemma parseArgs_meaning_witness :
  parseArgs ["--verbose"; "a.png"; "-r"; "x/y"; "b.png"; "--repo"; "--help";
             "--color"; "-m"]
  = {| cli_filePath := VStr "a.png";
       cli_repository := VStr "--help";
       cli_verbose := true;
       cli_dryMode := false;
       cli_markdown := true;
       cli_altText := VNull;
       cli_help := false;
       cli_version := false |}.
Proof.
  exact (parseArgs_meaning
           [Flag "--verbose"; Positional "a.png"; Opt "-r" "x/y";
            Positional "b.png"; Opt "--repo" "--help"; Skipped "--color";
            Flag "-m"] eq_refl).
Defined.

(** A value flag at the end of the command line has no argument to take:
    its field becomes [undefined], also when a value was given before. *)
Theorem parseArgs_dangling_value_flag (items : list cli_item)
    (name field : string) :
  forallb item_ok items = true ->
  Js.lookup name VALUE_FLAGS = Some field ->
  parseArgs (command_line items ++ [name])
  = set_value field VUndefined (parseArgs (command_line items)).
Proof.
  intros H Hk. unfold parseArgs.
  rewrite (parse_loop_items items [name] initial_options H).
  pose proof (parse_loop_items items [] initial_options H) as E.
  rewrite app_nil_r in E. rewrite E.
  cbn [parse_loop].
  assert (Hv : has_key name VALUE_FLAGS = true)
    by (unfold has_key; now rewrite Hk).
  destruct (value_key name Hv) as (_ & Hb & Hi).
  now rewrite (has_key_lookup _ _ Hb), Hi, Hk.
Qed.

Lemma parseArgs_dangling_value_flag_witness :
  parseArgs ["a.png"; "-r"; "x/y"; "-r"]
  = set_value "repository" VUndefined (parseArgs ["a.png"; "-r"; "x/y"]).
Proof.
  exact (parseArgs_dangling_value_flag
           [Positional "a.png"; Opt "-r" "x/y"] "-r" "repository"
           eq_refl eq_refl).
Defined.

(** ** The command *)

(** The alternative text [parseArgs] returns is a string or absent, so it
    converts to a string. *)
Lemma parse_loop_altText (n : nat) (args : list string) (o : cli_options) :
  (List.length args <= n)%nat ->
  Value.converts (cli_altText o) = true ->
  Value.converts (cli_altText (parse_loop args o)) = true.
Proof.
  revert args o. induction n as [|n IH]; intros [|arg rest] o L C;
    simpl in L; try lia; try exact C.
  cbn [parse_loop].
  destruct (Js.lookup arg BOOLEAN_FLAGS) as [f|].
  { apply IH; [lia | now rewrite set_flag_fields]. }
  destruct (Js.includes OBJECT_PROTOTYPE arg); [apply IH; [lia | exact C] |].
  destruct (Js.lookup arg VALUE_FLAGS) as [f|].
  - destruct rest as [|v rest'].
    + rewrite set_value_fields. cbn [cli_altText].
      now destruct (String.eqb f "altText").
    + apply IH; [simpl in L; lia |].
      rewrite set_value_fields. cbn [cli_altText].
      now destruct (String.eqb f "altText").
  - destruct (negb (startsWith_dash arg) && negb (truthy (cli_filePath o)));
      apply IH; try lia; exact C.
Qed.

Lemma parseArgs_altText (args : list string) :
  Value.converts (cli_altText (parseArgs args)) = true.
Proof.
  apply (parse_loop_altText (List.length args)); [lia | reflexivity].
Qed.

Section MainProperties.

Variable floor_log_ratio : Z -> Z.

Lemma main_file_info_ok (w : world) (options : cli_options)
    (filePath repository : string) :
  exists info,
    main_file_info floor_log_ratio w options filePath repository = Ok info.
Proof.
  unfold main_file_info, fileExists, getFileSize.
  destruct (fs_existsSync w filePath); simpl; [| eauto].
  destruct (fs_statSync w filePath) as [st|]; [| eauto].
  destruct (st_isFile st); eauto.
Qed.

(** With an alternative text and an asset id that convert, the lines for a
    result end without an error. *)
Lemma main_display_ok (options : cli_options) (r : UploadResult) :
  Value.converts (cli_altText options) = true ->
  Value.converts (assetId r) = true ->
  exists shown, main_display floor_log_ratio options r = (shown, None).
Proof.
  intros Ca Ci. unfold main_display. destruct (dryMode r); [eauto |].
  rewrite (ToString_converts _ Ci).
  destruct (cli_verbose options);
    (destruct (cli_markdown options); [| eauto]);
    unfold generateMarkdown, result_object; simpl;
    (destruct (truthy (cli_altText options));
     [rewrite (ToString_converts _ Ca); eauto
     | destruct (fileName r); simpl; eauto]).
Qed.

(** How the command ends.  With a help flag it prints the help text, with
    a version flag (and no help flag) the version; without a file path or
    without a repository it prints a usage error; in these four cases it
    makes no process or network call, and the exit code is 0 for the first
    two and 1 for the others.  Otherwise it makes the calls of one
    [uploadImage] run, none at all under a dry-run flag, and exits with 0
    when that run returns a result and with 1 when it throws. *)
Theorem main_exit_and_calls (args : list string) (w : world) :
  let options := parseArgs args in
  let run := main floor_log_ratio args w in
  let upload :=
    uploadImage
      {| opt_filePath := Value.to_string (cli_filePath options);
         opt_repository := Value.to_string (cli_repository options);
         opt_verbose := cli_verbose options;
         opt_dryMode := cli_dryMode options |} w in
  (if cli_help options then
     run = {| printed := [Stdout HELP]; made := []; exit_code := 0 |}
   else if cli_version options then
     run = {| printed := [Stdout "0.1.0"]; made := []; exit_code := 0 |}
   else if negb (truthy (cli_filePath options)) then
     run = usage_error "Image file path is required"
   else if negb (truthy (cli_repository options)) then
     run = usage_error "Repository is required"
   else
     made run = calls upload /\
     exit_code run = match outcome upload with Ok _ => 0%Z | Throw _ => 1%Z end)
  /\ (cli_dryMode options = true -> made run = []).
Proof.
  intros options run upload.
  assert (M : if cli_help options || cli_version options
                 || negb (truthy (cli_filePath options))
                 || negb (truthy (cli_repository options))
              then made run = []
              else made run = calls upload /\
                   exit_code run
                   = match outcome upload with Ok _ => 0%Z | Throw _ => 1%Z end).
  { unfold run, main. fold options.
    destruct (cli_help options); [reflexivity |].
    destruct (cli_version options); [reflexivity |].
    destruct (truthy (cli_filePath options)); [| reflexivity].
    destruct (truthy (cli_repository options)); [| reflexivity].
    cbn [orb negb].
    destruct (main_file_info_ok w options
                (Value.to_string (cli_filePath options))
                (Value.to_string (cli_repository options))) as [info ->].
    fold upload. destruct upload as [t [r|e]] eqn:Hup; [| now split].
    cbn [outcome snd calls fst].
    destruct (main_display_ok options r (parseArgs_altText args)
                (uploadImage_ok_asset w _ t r Hup)) as [shown ->].
    now split. }
  split.
  - unfold run, main in *. fold options in M |- *.
    destruct (cli_help options); [reflexivity |].
    destruct (cli_version options); [reflexivity |].
    destruct (truthy (cli_filePath options)); [| reflexivity].
    destruct (truthy (cli_repository options)); [| reflexivity].
    exact M.
  - intros Hd.
    destruct (cli_help options || cli_version options
              || negb (truthy (cli_filePath options))
              || negb (truthy (cli_repository options))); [exact M |].
    destruct M as [-> _].
    now destruct (dry_run_outcome w _ (Hd : opt_dryMode
                   {| opt_filePath := Value.to_string (cli_filePath options);
                      opt_repository := Value.to_string (cli_repository options);
                      opt_verbose := cli_verbose options;
                      opt_dryMode := cli_dryMode options |} = true)).
Qed.

(** What the command prints without the verbose flag when [uploadImage]
    returns a result: one line with the size of the file and the
    repository as it was typed, then, for a dry run, the file name, size
    and repository of the result; otherwise the success line followed by
    the URL of the result, or, under the markdown flag, by the markdown
    whose alternative text is the one given with the alt flag, or the file
    name when none or an empty one was given. *)
Theorem main_prints_result (args : list string) (w : world)
    (t : list event) (r : UploadResult) :
  let options := parseArgs args in
  let typed := Value.to_string (cli_repository options) in
  cli_help options = false -> cli_version options = false ->
  truthy (cli_filePath options) = true ->
  truthy (cli_repository options) = true ->
  cli_verbose options = false ->
  uploadImage
    {| opt_filePath := Value.to_string (cli_filePath options);
       opt_repository := typed;
       opt_verbose := false;
       opt_dryMode := cli_dryMode options |} w = (t, Ok r) ->
  printed (main floor_log_ratio args w) =
  (Stdout ((if cli_dryMode options then "[DRY] " else "") ++ "Uploading "
             ++ formatFileSize floor_log_ratio (fileSize r) ++ " to " ++ typed
             ++ "...")
   :: if cli_dryMode options then
        [ Stdout "DRY MODE: Would upload image";
          Stdout ("  File: " ++ fileName r);
          Stdout ("  Size: " ++ formatFileSize floor_log_ratio (fileSize r));
          Stdout ("  Repository: " ++ repository r) ]
      else
        Stdout "Upload successful!"
        :: if cli_markdown options then
             [ Stdout ""; Stdout "Markdown:";
               Stdout ("![" ++ (if truthy (cli_altText options)
                                then Value.to_string (cli_altText options)
                                else fileName r)
                         ++ "](" ++ url r ++ ")") ]
           else [Stdout ("URL: " ++ url r)])%list.
Proof.
  intros options typed Hh Hv Hf Hr Hverb Hrun.
  destruct (uploadImage_ok_file w _ t r Hrun) as (st & Hval & Hst & _ & Hsz & Hdry).
  pose proof (uploadImage_ok_named w _ t r Hrun) as Hname.
  cbn [opt_filePath opt_repository opt_dryMode] in Hval, Hst, Hdry.
  assert (Hex : fileExists w (Value.to_string (cli_filePath options)) = true).
  { unfold validateUploadInput in Hval.
    destruct (String.eqb _ ""); [discriminate |].
    destruct (String.eqb typed ""); [discriminate |].
    destruct (fileExists w _); [reflexivity | discriminate]. }
  unfold main. fold options. rewrite Hh, Hv, Hf, Hr. cbn [negb].
  unfold main_file_info. rewrite Hex. unfold getFileSize. rewrite Hst.
  rewrite Hverb. fold typed. rewrite Hrun. cbn [outcome snd calls fst].
  unfold main_display. rewrite Hdry, Hverb, <- Hsz.
  destruct (cli_dryMode options); [reflexivity |].
  destruct (cli_markdown options); [| reflexivity].
  rewrite (generateMarkdown_named r _ Hname).
  unfold options. rewrite (parseArgs_altText args). reflexivity.
Qed.

(** What the command prints without the verbose flag when [uploadImage]
    throws: the line about the upload when the file exists, an empty line
    and the message of the error on standard error, and no stack. *)
Theorem main_prints_error (args : list string) (w : world)
    (t : list event) (e : js_error) :
  let options := parseArgs args in
  cli_help options = false -> cli_version options = false ->
  truthy (cli_filePath options) = true ->
  truthy (cli_repository options) = true ->
  cli_verbose options = false ->
  uploadImage
    {| opt_filePath := Value.to_string (cli_filePath options);
       opt_repository := Value.to_string (cli_repository options);
       opt_verbose := false;
       opt_dryMode := cli_dryMode options |} w = (t, Throw e) ->
  exists info,
    main_file_info floor_log_ratio w options
      (Value.to_string (cli_filePath options))
      (Value.to_string (cli_repository options)) = Ok info /\
    (fileExists w (Value.to_string (cli_filePath options)) = false ->
     info = []) /\
    main floor_log_ratio args w =
    {| printed := (info ++ [Stderr ""; Stderr ("Error: " ++ message e)])%list;
       made := t;
       exit_code := 1 |}.
Proof.
  intros options Hh Hv Hf Hr Hverb Hrun.
  destruct (main_file_info_ok w options
              (Value.to_string (cli_filePath options))
              (Value.to_string (cli_repository options))) as [info Hinfo].
  exists info. split; [exact Hinfo | split].
  - intros Hex. unfold main_file_info in Hinfo. rewrite Hex in Hinfo.
    now injection Hinfo.
  - unfold main. fold options. rewrite Hh, Hv, Hf, Hr. cbn [negb].
    rewrite Hinfo, Hverb, Hrun. cbn [outcome snd calls fst].
    unfold main_catch. now rewrite !app_nil_r.
Qed.

End MainProperties.

Lemma main_exit_and_calls_witness :
  made (main exact_floor_log ["/tmp/shot.png"; "-r"; "o/r"; "--dry"]
          (Scenario.make Scenario.id_42
             (Scenario.json_response 200 Scenario.full_policy)
             Scenario.no_content)) = [].
Proof.
  exact (proj2 (main_exit_and_calls exact_floor_log
                  ["/tmp/shot.png"; "-r"; "o/r"; "--dry"]
                  (Scenario.make Scenario.id_42
                     (Scenario.json_response 200 Scenario.full_policy)
                     Scenario.no_content)) eq_refl).
Defined.

Lemma main_prints_result_witness :
  printed (main exact_floor_log ["/tmp/shot.png"; "-r"; "o/r"; "-m"; "-a"; ""]
             (Scenario.make Scenario.id_42
                (Scenario.json_response 200 Scenario.full_policy)
                Scenario.no_content))
  = [ Stdout "Uploading 10 B to o/r...";
      Stdout "Upload successful!";
      Stdout ""; Stdout "Markdown:";
      Stdout "![shot.png](https://github.com/user-attachments/assets/abc123)" ].
Proof.
  exact (main_prints_result exact_floor_log
           ["/tmp/shot.png"; "-r"; "o/r"; "-m"; "-a"; ""]
           (Scenario.make Scenario.id_42
              (Scenario.json_response 200 Scenario.full_policy)
              Scenario.no_content)
           (calls (uploadImage (Scenario.request_for false "o/r")
                     (Scenario.make Scenario.id_42
                        (Scenario.json_response 200 Scenario.full_policy)
                        Scenario.no_content)))
           {| url := "https://github.com/user-attachments/assets/abc123";
              assetId := VStr "abc123";
              fileName := "shot.png";
              fileSize := 10;
              mimeType := "image/png";
              repository := "o/r";
              dryMode := false |}
           eq_refl eq_refl eq_refl eq_refl eq_refl eq_refl).
Defined.

Lemma main_prints_error_witness :
  exists info,
    main_file_info exact_floor_log Scenario.offline
      (parseArgs ["/tmp/missing.png"; "-r"; "o/r"]) "/tmp/missing.png" "o/r"
    = Ok info /\
    (fileExists Scenario.offline "/tmp/missing.png" = false -> info = []) /\
    main exact_floor_log ["/tmp/missing.png"; "-r"; "o/r"] Scenario.offline =
    {| printed :=
         (info ++ [Stderr "";
                   Stderr ("Error: " ++ "File does not exist: /tmp/missing.png")])%list;
       made := [];
       exit_code := 1 |}.
Proof.
  exact (main_prints_error exact_floor_log ["/tmp/missing.png"; "-r"; "o/r"]
           Scenario.offline []
           (mkError FileNotFound "File does not exist: /tmp/missing.png")
           eq_refl eq_refl eq_refl eq_refl eq_refl eq_refl).
Defined.

(** ** The successful run *)

(** When every collaborator answers, the run succeeds: with a policy
    received, a readable file, a policy that has a form and an upload URL
    whose values convert to strings, as its asset id does, and a storage
    endpoint that answers 2xx, [uploadImage] makes its four calls in order
    and returns a result whose URL is the CDN prefix followed by the asset
    id of the policy, with the name, size and MIME type of the file. *)
Theorem upload_succeeds (w : world) (o : options)
    (parsed : ParsedRepository) (st : stat) (token out content : string)
    (r answer : response) (policy form upload_url a : value)
    (entries : list (string * value)) :
  policy_received w o parsed st token out r policy ->
  policy_asset_id policy = Ok a ->
  fs_readFileSync w (opt_filePath o) = Some content ->
  Value.get policy "form" = Ok form ->
  Value.entries form = Ok entries ->
  Value.get policy "upload_url" = Ok upload_url ->
  Value.converts upload_url = true ->
  Value.converts a = true ->
  forallb (fun kv => Value.converts (snd kv)) entries = true ->
  let fileName := Path.basename (opt_filePath o) in
  let mimeType := getMimeType (opt_filePath o) in
  let storage :=
    {| req_url := Value.to_string upload_url;
       req_method := "POST";
       req_headers := [];
       req_body :=
         FormData
           (map (fun kv => (fst kv, Field (Value.to_string (snd kv)))) entries
              ++ [("file", Blob content mimeType fileName)])%list |} in
  fetch w storage = Responded answer ->
  response_ok answer = true ->
  uploadImage o w =
  ([token_call;
    resolver_call (owner parsed) (repo parsed);
    Fetched (policy_request_of o st token out);
    Fetched storage],
   Ok {| url := CDN_PREFIX ++ Value.to_string a;
         assetId := a;
         fileName := fileName;
         fileSize := st_size st;
         mimeType := mimeType;
         repository := owner parsed ++ "/" ++ repo parsed;
         dryMode := false |}).
Proof.
  intros Hrec Ha Hr Hf He Hu Cu Ca Ce fileName mimeType storage Hs Hok.
  assert (P : printable_asset_id policy = Some a)
    by (unfold printable_asset_id; now rewrite Hu, Ha, Cu, Ca).
  destruct (uploadImage_after_policy w o parsed st token out r policy a
              Hrec P) as [C O].
  assert (S : uploadFileToStorage policy (opt_filePath o) fileName mimeType w
              = ([Fetched storage], Ok tt)).
  { unfold uploadFileToStorage, bind, readFileSync, lift, do_fetch, throw, ret.
    rewrite Hr, Hf, He, (append_entries_ok entries Ce), Hu,
      (ToString_converts _ Cu).
    cbv beta iota.
    change (storage_request (Value.to_string upload_url) (form_fields entries)
              content fileName mimeType) with storage.
    rewrite Hs. cbv beta iota. now rewrite Hok. }
  fold fileName mimeType in C, O. rewrite S in C, O. simpl in C, O.
  destruct (uploadImage o w) as [t res]. simpl in C, O. now subst.
Qed.

Lemma upload_succeeds_witness :
  uploadImage (Scenario.request_for false "o/r")
    (Scenario.make Scenario.id_42
       (Scenario.json_response 200 Scenario.full_policy) Scenario.no_content)
  = ([token_call;
      resolver_call "o" "r";
      Fetched (policy_request "gho_secret" (Int 42) "shot.png" 10 "image/png");
      Fetched
        {| req_url := "https://store/x";
           req_method := "POST";
           req_headers := [];
           req_body :=
             FormData [("k", Field "v");
                       ("file", Blob "0123456789" "image/png" "shot.png")] |}],
     Ok {| url := "https://github.com/user-attachments/assets/abc123";
           assetId := VStr "abc123";
           fileName := "shot.png";
           fileSize := 10;
           mimeType := "image/png";
           repository := "o/r";
           dryMode := false |}).
Proof.
  refine (upload_succeeds
            (Scenario.make Scenario.id_42
               (Scenario.json_response 200 Scenario.full_policy)
               Scenario.no_content)
            (Scenario.request_for false "o/r") (mkRepo "o" "r")
            (mkStat true 10) "gho_secret" "42" "0123456789"
            (mkResponse 200 "OK" "" (Some Scenario.full_policy))
            (mkResponse 204 "No Content" "" None)
            Scenario.full_policy (VObj [("k", VStr "v")])
            (VStr "https://store/x") (VStr "abc123") [("k", VStr "v")]
            _ eq_refl eq_refl eq_refl eq_refl eq_refl eq_refl eq_refl eq_refl
            eq_refl eq_refl).
  unfold policy_received. repeat split.
Defined.
